(** * Nose-mouth distance from YOLO-Pose labels: a shallow embedding of
      [scripts/3_compute_distances.py]

    The script reads label files (one detection per line), parses every line
    into a class id, a box and a keypoint list, scales the first two keypoints
    to pixels, and writes their distance to a CSV file.

    Conventions of the embedding.
    - A Python [str] is a list of characters; a character is a code point
      below 256 (Rocq's [ascii]), so the model covers Latin-1 text.  Of a
      file name that holds bytes that are not text the model keeps one
      thing: that it cannot be written to the CSV file ([encodable]).
    - The interpreter's limits are at their defaults: 4300 digits for [int]
      and [str] on integers, 131072 characters for a field read by
      [csv.reader].
    - A Python [float] is a binary64 number, [spec_float] with precision 53
      and maximal exponent 1024; arithmetic is the correctly rounded
      arithmetic of [SpecFloat].
    - A Python [int] is a [Z].
    - A call that can raise returns a [result]; [try ... except] is a match
      on it.
    - [math.hypot] and the text form of a float ([str(x)], used by the CSV
      writer) are parameters of the pipeline: the script only calls them. *)

From Stdlib Require Import ZArith List Bool Ascii String Lia.
From Stdlib Require Import Sorting.Sorted Sorting.Permutation.
From Stdlib Require Import Floats.SpecFloat.
From Stdlib Require Import Numbers.DecimalString.
Import ListNotations.

Local Open Scope Z_scope.

(** ** Exceptions *)

Inductive exn : Type :=
| ValueError
| OverflowError
| ZeroDivisionError
| TypeError
| UnicodeDecodeError
| UnicodeEncodeError
| OSError
| ReadError
| CsvError.

Inductive result (A : Type) : Type :=
| Ok (a : A)
| Raise (e : exn).

Arguments Ok {A} a.
Arguments Raise {A} e.

Definition bind {A B : Type} (r : result A) (k : A -> result B) : result B :=
  match r with
  | Ok a => k a
  | Raise e => Raise e
  end.

Notation "x <- r ;; k" := (bind r (fun x => k))
  (at level 61, r at next level, right associativity).

Fixpoint mapM {A B : Type} (f : A -> result B) (l : list A) : result (list B) :=
  match l with
  | [] => Ok []
  | a :: l' => b <- f a ;; bs <- mapM f l' ;; Ok (b :: bs)
  end.

Definition raises {A : Type} (r : result A) : Prop :=
  exists e, r = Raise e.

(** ** Strings *)

Definition str : Type := list ascii.

(** A string literal as a [str]. *)
Definition L (s : string) : str := list_ascii_of_string s.

Definition code (c : ascii) : Z := Z.of_nat (nat_of_ascii c).

Definition chr (n : Z) : ascii := ascii_of_nat (Z.to_nat n).

Definition str_eqb (a b : str) : bool :=
  if list_eq_dec ascii_dec a b then true else false.

(** [str.isspace] on one character: tab to carriage return, the four
    separators 28..31, space, NEL and the no-break space. *)
Definition isspace (c : ascii) : bool :=
  let n := code c in
  ((9 <=? n) && (n <=? 13)) || ((28 <=? n) && (n <=? 32))
  || (n =? 133) || (n =? 160).

(** The decimal digits, [0-9]: what [\d] matches and what [int] and [float]
    read (below 256 there is no other decimal digit). *)
Definition isdecimal (c : ascii) : bool :=
  let n := code c in (48 <=? n) && (n <=? 57).

(** [str.isdigit] on one character: the decimal digits and the superscripts
    two, three and one (178, 179, 185). *)
Definition isdigit_char (c : ascii) : bool :=
  isdecimal c || (code c =? 178) || (code c =? 179) || (code c =? 185).

Definition digit_val (c : ascii) : Z := code c - 48.

Fixpoint lstrip (s : str) : str :=
  match s with
  | c :: s' => if isspace c then lstrip s' else s
  | [] => []
  end.

Definition rstrip (s : str) : str := rev (lstrip (rev s)).

Definition strip (s : str) : str := rstrip (lstrip s).

(** [s.split()]: the maximal runs of characters that are not white space.
    [cur] is the run being read, in reverse. *)
Fixpoint split_ws_aux (cur : str) (s : str) : list str :=
  match s with
  | [] => match cur with [] => [] | _ => [rev cur] end
  | c :: s' =>
      if isspace c
      then match cur with
           | [] => split_ws_aux [] s'
           | _ => rev cur :: split_ws_aux [] s'
           end
      else split_ws_aux (c :: cur) s'
  end.

Definition split_ws (s : str) : list str := split_ws_aux [] s.

(** Line boundaries of [str.splitlines]: LF, VT, FF, CR, the separators
    28..30 and NEL; CR LF counts once. *)
Definition islinebreak (c : ascii) : bool :=
  let n := code c in
  ((10 <=? n) && (n <=? 13)) || ((28 <=? n) && (n <=? 30)) || (n =? 133).

Fixpoint splitlines_aux (cur : str) (s : str) : list str :=
  match s with
  | [] => match cur with [] => [] | _ => [rev cur] end
  | c :: s' =>
      if islinebreak c
      then match s' with
           | d :: s'' =>
               if (code c =? 13) && (code d =? 10)
               then rev cur :: splitlines_aux [] s''
               else rev cur :: splitlines_aux [] s'
           | [] => [rev cur]
           end
      else splitlines_aux (c :: cur) s'
  end.

Definition splitlines (s : str) : list str := splitlines_aux [] s.

(** [s.split(sep)] for a one-character separator: never empty. *)
Fixpoint split_on_aux (sep : ascii) (cur : str) (s : str) : list str :=
  match s with
  | [] => [rev cur]
  | c :: s' =>
      if Ascii.eqb c sep
      then rev cur :: split_on_aux sep [] s'
      else split_on_aux sep (c :: cur) s'
  end.

Definition split_on (sep : ascii) (s : str) : list str := split_on_aux sep [] s.

(** [str.lower] on Latin-1: the capital letters A-Z and the accented
    capitals 192..222 (but the multiplication sign 215) move up by 32. *)
Definition lower_char (c : ascii) : ascii :=
  let n := code c in
  if ((65 <=? n) && (n <=? 90))
     || ((192 <=? n) && (n <=? 222) && negb (n =? 215))
  then chr (n + 32) else c.

Definition lower (s : str) : str := map lower_char s.

Fixpoint startswith (p s : str) : bool :=
  match p, s with
  | [], _ => true
  | a :: p', b :: s' => Ascii.eqb a b && startswith p' s'
  | _ :: _, [] => false
  end.

Definition endswith (s suffix : str) : bool := startswith (rev suffix) (rev s).

(** ** Floats: binary64 *)

Definition float : Type := spec_float.

Definition prec : Z := 53.
Definition emax : Z := 1024.

Definition fmul : float -> float -> float := SFmul prec emax.
Definition fsub : float -> float -> float := SFsub prec emax.
Definition fdiv : float -> float -> float := SFdiv prec emax.
Definition fabs : float -> float := SFabs.

Definition is_zero (x : float) : bool :=
  match x with S754_zero _ => true | _ => false end.

Definition is_finite (x : float) : bool :=
  match x with S754_zero _ | S754_finite _ _ _ => true | _ => false end.

(** The float nearest to an integer, ties to even; infinite when the integer
    is out of range. *)
Definition round_of_Z (z : Z) : float := binary_normalize prec emax z 0 false.

(** An [int] operand of a float operation is converted first, which raises
    [OverflowError] when it is too large. *)
Definition float_of_int (z : Z) : result float :=
  match round_of_Z z with
  | S754_infinity _ => Raise OverflowError
  | x => Ok x
  end.

(** [int(x)] on a float: truncation toward zero; [ValueError] on a NaN and
    [OverflowError] on an infinity. *)
Definition int_of_float (x : float) : result Z :=
  match x with
  | S754_zero _ => Ok 0
  | S754_finite s m e =>
      let a := match e with
               | Zneg p => Z.shiftr (Zpos m) (Zpos p)
               | _ => Z.shiftl (Zpos m) e
               end in
      Ok (if s then - a else a)
  | S754_infinity _ => Raise OverflowError
  | S754_nan => Raise ValueError
  end.

(** [a / b] on floats raises [ZeroDivisionError] on a zero divisor. *)
Definition truediv (a b : float) : result float :=
  if is_zero b then Raise ZeroDivisionError else Ok (fdiv a b).

(** Truth value of a float: false on the two zeros only. *)
Definition float_truth (x : float) : bool := negb (is_zero x).

(** *** [float(s)]: reading a decimal literal *)

(** The value [(-1)^s * m * 10^e], correctly rounded. *)
Definition float_of_decimal (s : bool) (m : Z) (e : Z) : float :=
  match m with
  | Zpos p =>
      match e with
      | Zneg k =>
          SFdiv prec emax (S754_finite s p 0)
                (S754_finite false (Pos.pow 10 k) 0)
      | _ => binary_normalize prec emax
               (if s then - (m * 10 ^ e) else m * 10 ^ e) 0 s
      end
  | _ => S754_zero s
  end.

Fixpoint digits_val (acc : Z) (s : str) : Z :=
  match s with
  | [] => acc
  | c :: s' => digits_val (10 * acc + digit_val c) s'
  end.

(** Longest prefix of decimal digits, and the rest. *)
Fixpoint span_digits (s : str) : str * str :=
  match s with
  | c :: s' =>
      if isdecimal c
      then let (d, r) := span_digits s' in (c :: d, r)
      else ([], s)
  | [] => ([], [])
  end.

(** White space that [float] strips: the C white space, and the non-ASCII
    spaces (which it first rewrites to a blank). *)
Definition float_space (c : ascii) : bool :=
  let n := code c in
  ((9 <=? n) && (n <=? 13)) || (n =? 32) || (n =? 133) || (n =? 160).

Fixpoint lstrip_float (s : str) : str :=
  match s with
  | c :: s' => if float_space c then lstrip_float s' else s
  | [] => []
  end.

(** Underscores are allowed between two digits only; they are then dropped.
    [prev] is the previous character. *)
Fixpoint drop_underscores (prev : option ascii) (s : str) : option str :=
  match s with
  | [] =>
      match prev with
      | Some p => if Ascii.eqb p "_" then None else Some []
      | None => Some []
      end
  | c :: s' =>
      let prev_digit :=
        match prev with Some p => isdecimal p | None => false end in
      let prev_under :=
        match prev with Some p => Ascii.eqb p "_" | None => false end in
      if Ascii.eqb c "_"
      then if prev_digit then drop_underscores (Some c) s' else None
      else if prev_under && negb (isdecimal c) then None
           else match drop_underscores (Some c) s' with
                | Some r => Some (c :: r)
                | None => None
                end
  end.

Definition read_sign (s : str) : bool * str :=
  match s with
  | c :: s' =>
      if Ascii.eqb c "-" then (true, s')
      else if Ascii.eqb c "+" then (false, s')
      else (false, s)
  | [] => (false, [])
  end.

(** The exponent part: empty, or [e] or [E], an optional sign and at least
    one digit. *)
Definition read_exponent (s : str) : option Z :=
  match s with
  | [] => Some 0
  | c :: s' =>
      if Ascii.eqb (lower_char c) "e"
      then let (neg, s1) := read_sign s' in
           let (d, r) := span_digits s1 in
           match d, r with
           | _ :: _, [] => Some (if neg then - digits_val 0 d else digits_val 0 d)
           | _, _ => None
           end
      else None
  end.

(** The unsigned part of a literal: [inf], [infinity], [nan] in any case, or
    digits with an optional point and exponent and at least one digit before
    the exponent. *)
Definition read_unsigned (s : bool) (u : str) : option float :=
  let l := lower u in
  if str_eqb l (L "inf") || str_eqb l (L "infinity") then Some (S754_infinity s)
  else if str_eqb l (L "nan") then Some S754_nan
  else
    let (ip, r1) := span_digits u in
    let (fp, r2) :=
      match r1 with
      | c :: r1' => if Ascii.eqb c "." then span_digits r1' else ([], r1)
      | [] => ([], [])
      end in
    match ip ++ fp with
    | [] => None
    | ds =>
        match read_exponent r2 with
        | Some e =>
            Some (float_of_decimal s (digits_val 0 ds)
                                   (e - Z.of_nat (List.length fp)))
        | None => None
        end
    end.

(** [float(s)] on a string: [ValueError] unless the whole string, stripped,
    is a literal. *)
Definition py_float (s : str) : result float :=
  let core := rev (lstrip_float (rev (lstrip_float s))) in
  let plain :=
    if existsb (fun c => Ascii.eqb c "_") core
    then drop_underscores None core
    else Some core in
  match plain with
  | None => Raise ValueError
  | Some t =>
      let (sg, u) := read_sign t in
      match read_unsigned sg u with
      | Some x => Ok x
      | None => Raise ValueError
      end
  end.

(** ** The line parser: [parse_label_line] *)

(** A keypoint [(x, y, c)]; [c] is [None] when the line carries no
    confidence. *)
Definition keypoint : Type := float * float * option float.

(** The tuple [cls, bx, by, bw, bh, kps] the parser returns. *)
Record detection : Type := mkDetection {
  cls : Z;
  bx : float;
  by_ : float;
  bw : float;
  bh : float;
  kps : list keypoint
}.

(** The loop that reads [x, y, c] with three calls of [next] until the
    iterator is exhausted; values read in an unfinished round are lost. *)
Fixpoint read_triplets (it : list float) : list keypoint :=
  match it with
  | x :: y :: c :: it' => (x, y, Some c) :: read_triplets it'
  | _ => []
  end.

(** The loop that reads [x, y] with two calls of [next]. *)
Fixpoint read_pairs (it : list float) : list keypoint :=
  match it with
  | x :: y :: it' => (x, y, None) :: read_pairs it'
  | _ => []
  end.

Definition group_keypoints (rem : list float) : list keypoint :=
  match rem with
  | [] => []
  | _ =>
      if Z.of_nat (List.length rem) mod 3 =? 0 then read_triplets rem
      else if Z.of_nat (List.length rem) mod 2 =? 0 then read_pairs rem
      else read_pairs rem
  end.

(** [None] is the skip sentinel.  The conversion of the tokens is inside the
    [try] (any failure there returns the sentinel); [int(vals[0])] is after
    it.  Unpacking fewer than five values would raise; the length test
    excludes it. *)
Definition parse_label_line (line : str) : result (option detection) :=
  let toks := split_ws (strip line) in
  if (List.length toks <? 5)%nat then Ok None
  else
    match mapM py_float toks with
    | Raise _ => Ok None
    | Ok vals =>
        match vals with
        | v0 :: v1 :: v2 :: v3 :: v4 :: rem =>
            c <- int_of_float v0 ;;
            Ok (Some (mkDetection c v1 v2 v3 v4 (group_keypoints rem)))
        | _ => Raise ValueError
        end
    end.

(** ** The frame indexer: [extract_frame_index] *)

(** [sys.get_int_max_str_digits()], which the script leaves at its default:
    the most digits that [int] reads from a string and that [str] writes of
    an integer. *)
Definition int_max_str_digits : Z := 4300.

(** [int(s)] on a string, base ten: surrounding white space, a sign, and
    digits with single underscores between them.  The sign and the
    underscores do not count as digits; more digits than
    [int_max_str_digits] raise [ValueError], whatever the digits are. *)
Definition py_int (s : str) : result Z :=
  let core := rev (lstrip_float (rev (lstrip_float s))) in
  let (sg, u) := read_sign core in
  match drop_underscores None u with
  | Some (c :: d) =>
      if forallb isdecimal (c :: d)
      then
        if int_max_str_digits <? Z.of_nat (List.length (c :: d))
        then Raise ValueError
        else Ok (if sg then - digits_val 0 (c :: d) else digits_val 0 (c :: d))
      else Raise ValueError
  | _ => Raise ValueError
  end.

(** [str.isdigit]: not empty, and digits only. *)
Definition isdigit (s : str) : bool :=
  match s with
  | [] => false
  | _ => forallb isdigit_char s
  end.

(** What follows the last [sep], or the whole string: [cur] is the part read
    since the last [sep], in reverse. *)
Fixpoint after_last_aux (sep : ascii) (cur : str) (s : str) : str :=
  match s with
  | [] => rev cur
  | c :: s' =>
      if Ascii.eqb c sep then after_last_aux sep [] s'
      else after_last_aux sep (c :: cur) s'
  end.

(** [os.path.basename]: what follows the last slash. *)
Definition basename (p : str) : str := after_last_aux "/" [] p.

(** [s.rsplit(sep, 1)[0]]: what precedes the last [sep], or the whole
    string. *)
Fixpoint before_last (sep : ascii) (s : str) : str :=
  match s with
  | [] => []
  | c :: s' =>
      if existsb (Ascii.eqb sep) s' then c :: before_last sep s'
      else if Ascii.eqb c sep then [] else s
  end.

(** [FRAME_RE] is [(\d+)\.txt$].  A match at the start of [s]: the longest
    run of digits (a shorter one is followed by a digit, not by the point),
    then [.txt], then the end of the string or a final line feed. *)
Definition frame_re_match (s : str) : option str :=
  let (d, r) := span_digits s in
  match d with
  | [] => None
  | _ =>
      if str_eqb r (L ".txt") || str_eqb r (L ".txt" ++ [chr 10])
      then Some d else None
  end.

(** [FRAME_RE.search]: the match at the leftmost position; the result is
    group 1. *)
Fixpoint frame_re_search (s : str) : option str :=
  match frame_re_match s with
  | Some d => Some d
  | None =>
      match s with
      | [] => None
      | _ :: s' => frame_re_search s'
      end
  end.

Definition extract_frame_index (fname : str) : result (option Z) :=
  match frame_re_search (basename fname) with
  | Some g => n <- py_int g ;; Ok (Some n)
  | None =>
      let parts := split_on "_" (before_last "." (basename fname)) in
      match parts with
      | [] => Ok None
      | _ =>
          if isdigit (last parts [])
          then n <- py_int (last parts []) ;; Ok (Some n)
          else Ok None
      end
  end.

(** ** Rows *)

(** The dictionary appended to [rows]; [None] is Python's [None]. *)
Record row : Type := mkRow {
  filename : str;
  frame : option Z;
  time_s : option float;
  nose_x : option float;
  nose_y : option float;
  mouth_x : option float;
  mouth_y : option float;
  d_px : option float;
  d_norm : option float
}.

(** [x*width, y*height]: the integers are converted to floats first. *)
Definition norm_to_px (x y : float) (width height : Z)
  : result (float * float) :=
  w <- float_of_int width ;;
  let px := fmul x w in
  h <- float_of_int height ;;
  Ok (px, fmul y h).

(** Python's order on strings: lexicographic on the code points. *)
Fixpoint str_ltb (a b : str) : bool :=
  match a, b with
  | _, [] => false
  | [], _ :: _ => true
  | x :: a', y :: b' =>
      if code x <? code y then true
      else if code y <? code x then false
      else str_ltb a' b'
  end.

Definition str_le (a b : str) : Prop := str_ltb b a = false.

(** [sorted(l, key=key)]: a stable sort that compares keys with [<]. *)
Section Sorted.
Context {A : Type} (key : A -> str).

Fixpoint insert_sorted (x : A) (l : list A) : list A :=
  match l with
  | [] => [x]
  | y :: l' =>
      if str_ltb (key y) (key x) then y :: insert_sorted x l'
      else x :: l
  end.

Fixpoint sorted (l : list A) : list A :=
  match l with
  | [] => []
  | x :: l' => insert_sorted x (sorted l')
  end.
End Sorted.

(** [f.lower().endswith('.txt')] *)
Definition is_txt (name : str) : bool := endswith (lower name) (L ".txt").

(** [os.path.join(d, f)] for a plain entry name [f]. *)
Definition path_join (d f : str) : str :=
  match d with
  | [] => f
  | _ => if endswith d (L "/") then d ++ f else d ++ L "/" ++ f
  end.

(** A member of an archive: [extract] is [None] when [tar.extractfile]
    returns [None], else the outcome of reading and decoding the member. *)
Record tar_member : Type := mkMember {
  m_name : str;
  m_isfile : bool;
  m_extract : option (result str)
}.

(** The files the run can see.  A name that the system gives ([os.listdir],
    the members of an archive) can hold bytes that are not text; Python
    keeps them as lone surrogates, which cannot be written to a UTF-8 file.
    The characters of [str] do not represent them, so the world says of each
    name whether it is free of them: [encodable]. *)
Record env : Type := mkEnv {
  listdir : str -> result (list str);
  read_text : str -> result str;
  tar_open : str -> result (list tar_member);
  open_write : str -> bool;
  encodable : str -> bool
}.

Record args : Type := mkArgs {
  labels_dir : option str;
  archive : option (list str);
  out : str;
  width : Z;
  height : Z;
  fps : float;
  plot : option str
}.

(** ** The row assembler and the sources *)

Section Pipeline.

(** [math.hypot] on two floats. *)
Variable hypot : float -> float -> float.

(** The pixel coordinates [nose_px], [mouth_px] of a detection: pairs of
    [None] with fewer than two keypoints. *)
Definition keypoints_px (k : list keypoint) (width height : Z)
  : result ((option float * option float) * (option float * option float)) :=
  if (List.length k <? 2)%nat then Ok ((None, None), (None, None))
  else
    match k with
    | (nx, ny, _) :: (mx, my, _) :: _ =>
        n <- norm_to_px nx ny width height ;;
        m <- norm_to_px mx my width height ;;
        Ok ((Some (fst n), Some (snd n)), (Some (fst m), Some (snd m)))
    | _ => Raise TypeError
    end.

(** [d_px, d_norm]: computed when the two first coordinates are there.
    Subtracting a missing second coordinate would be a type error. *)
Definition distances (nose_px mouth_px : option float * option float)
           (width height : Z) : result (option float * option float) :=
  match fst nose_px, fst mouth_px with
  | Some n0, Some m0 =>
      let dx := fsub n0 m0 in
      match snd nose_px, snd mouth_px with
      | Some n1, Some m1 =>
          let dy := fsub n1 m1 in
          let d := hypot dx dy in
          w <- float_of_int width ;;
          h <- float_of_int height ;;
          dn <- truediv d (hypot w h) ;;
          Ok (Some d, Some dn)
      | _, _ => Raise TypeError
      end
  | _, _ => Ok (None, None)
  end.

(** [(frame / fps) if (frame is not None and fps) else None] *)
Definition time_of_frame (fr : option Z) (fps : float)
  : result (option float) :=
  match fr with
  | Some f =>
      if float_truth fps
      then x <- float_of_int f ;; t <- truediv x fps ;; Ok (Some t)
      else Ok None
  | None => Ok None
  end.

(** The row built from a parsed line. *)
Definition assemble_row (filename_label : str) (det : detection)
           (width height : Z) (fps : float) : result row :=
  px <- keypoints_px (kps det) width height ;;
  let nose_px := fst px in
  let mouth_px := snd px in
  d <- distances nose_px mouth_px width height ;;
  fr <- extract_frame_index filename_label ;;
  t <- time_of_frame fr fps ;;
  Ok (mkRow filename_label fr t (fst nose_px) (snd nose_px)
            (fst mouth_px) (snd mouth_px) (fst d) (snd d)).

(** The body of the loop over the lines: [None] when the line is left out
    ([continue]). *)
Definition row_of_line (filename_label : str) (width height : Z)
           (fps : float) (line : str) : result (option row) :=
  match strip line with
  | [] => Ok None
  | _ =>
      parsed <- parse_label_line line ;;
      match parsed with
      | None => Ok None
      | Some det =>
          r <- assemble_row filename_label det width height fps ;;
          Ok (Some r)
      end
  end.

(** The loop over the lines, with the list [rows] it appends to. *)
Fixpoint loop_lines (filename_label : str) (width height : Z) (fps : float)
         (rows : list row) (text : list str) : result (list row) :=
  match text with
  | [] => Ok rows
  | line :: text' =>
      r <- row_of_line filename_label width height fps line ;;
      loop_lines filename_label width height fps
                 (match r with Some x => rows ++ [x] | None => rows end)
                 text'
  end.

(** [fh] is the outcome of [fh.read()]. *)
Definition process_txt_handle (filename_label : str) (fh : result str)
           (width height : Z) (fps : float) : result (list row) :=
  content <- fh ;;
  loop_lines filename_label width height fps [] (splitlines (strip content)).

Variable E : env.

(** The loop of [process_dir]: a file whose processing raises adds
    nothing. *)
Fixpoint loop_files (dir : str) (width height : Z) (fps : float)
         (out_ : list row) (files : list str) : list row :=
  match files with
  | [] => out_
  | fn :: files' =>
      match process_txt_handle fn (read_text E (path_join dir fn))
                               width height fps with
      | Ok rows => loop_files dir width height fps (out_ ++ rows) files'
      | Raise _ => loop_files dir width height fps out_ files'
      end
  end.

Definition process_dir (dir : str) (width height : Z) (fps : float)
  : result (list row) :=
  names <- listdir E dir ;;
  Ok (loop_files dir width height fps []
                 (sorted (fun f => f) (filter is_txt names))).

(** The loop of [process_archive]: nothing is caught. *)
Fixpoint loop_members (width height : Z) (fps : float)
         (out_ : list row) (members : list tar_member) : result (list row) :=
  match members with
  | [] => Ok out_
  | m :: members' =>
      match m_extract m with
      | None => loop_members width height fps out_ members'
      | Some txt =>
          rows <- process_txt_handle (m_name m) txt width height fps ;;
          loop_members width height fps (out_ ++ rows) members'
      end
  end.

Definition process_archive (archive_path : str) (width height : Z)
           (fps : float) : result (list row) :=
  tar <- tar_open E archive_path ;;
  loop_members width height fps []
    (sorted m_name
       (filter (fun m => m_isfile m && is_txt (m_name m)) tar)).

(** The loop of [main] over the archives. *)
Fixpoint loop_archives (width height : Z) (fps : float)
         (rows : list row) (archives : list str) : result (list row) :=
  match archives with
  | [] => Ok rows
  | a :: archives' =>
      more <- process_archive a width height fps ;;
      loop_archives width height fps (rows ++ more) archives'
  end.

(** The rows [main] holds when it reaches [write_csv]. *)
Definition collect_rows (a : args) : result (list row) :=
  rows <- match labels_dir a with
          | Some (c :: d) =>
              process_dir (c :: d) (width a) (height a) (fps a)
          | _ => Ok []
          end ;;
  match archive a with
  | Some (x :: l) => loop_archives (width a) (height a) (fps a) rows (x :: l)
  | _ => Ok rows
  end.

End Pipeline.

(** ** The CSV writer: [write_csv] *)

(** [str(n)] on an integer. *)
Definition str_of_int (z : Z) : str := L (NilZero.string_of_int (Z.to_int z)).

(** A value stored in a row dictionary. *)
Inductive value : Type :=
| VNone
| VStr (s : str)
| VInt (z : Z)
| VFloat (x : float).

Definition opt_float (o : option float) : value :=
  match o with Some x => VFloat x | None => VNone end.

Definition opt_int (o : option Z) : value :=
  match o with Some z => VInt z | None => VNone end.

(** The row as the dictionary the script builds: keys and values, in the
    order of the literal. *)
Definition row_items (r : row) : list (str * value) :=
  [ (L "filename", VStr (filename r));
    (L "frame", opt_int (frame r));
    (L "time_s", opt_float (time_s r));
    (L "nose_x", opt_float (nose_x r));
    (L "nose_y", opt_float (nose_y r));
    (L "mouth_x", opt_float (mouth_x r));
    (L "mouth_y", opt_float (mouth_y r));
    (L "d_px", opt_float (d_px r));
    (L "d_norm", opt_float (d_norm r)) ].

(** [d.get(k, default)] *)
Fixpoint dict_get (d : list (str * value)) (k : str) (default : value)
  : value :=
  match d with
  | [] => default
  | (k', v) :: d' => if str_eqb k' k then v else dict_get d' k default
  end.

Definition keys : list str :=
  [ L "filename"; L "frame"; L "time_s"; L "nose_x"; L "nose_y";
    L "mouth_x"; L "mouth_y"; L "d_px"; L "d_norm" ].

Definition comma : ascii := ",".
Definition dquote : ascii := chr 34.
Definition CR : ascii := chr 13.
Definition LF : ascii := chr 10.

(** The characters that make the writer quote a field: the delimiter, the
    quote and the characters of the line terminator. *)
Definition csv_special (c : ascii) : bool :=
  Ascii.eqb c comma || Ascii.eqb c dquote || Ascii.eqb c CR || Ascii.eqb c LF.

Fixpoint csv_double_quotes (f : str) : str :=
  match f with
  | [] => []
  | c :: f' =>
      if Ascii.eqb c dquote then dquote :: dquote :: csv_double_quotes f'
      else c :: csv_double_quotes f'
  end.

Definition csv_field (f : str) : str :=
  if existsb csv_special f
  then dquote :: csv_double_quotes f ++ [dquote]
  else f.

Fixpoint csv_join (fields : list str) : str :=
  match fields with
  | [] => []
  | [f] => csv_field f
  | f :: fields' => csv_field f ++ comma :: csv_join fields'
  end.

(** One record as [csv.writer] writes it in the default dialect: minimal
    quoting, quotes doubled, lines closed by CR LF; a record made of one empty
    field is written as two quotes. *)
Definition csv_record (fields : list str) : str :=
  match fields with
  | [ [] ] => [dquote; dquote; CR; LF]
  | _ => csv_join fields ++ [CR; LF]
  end.

Section Writer.

(** [str(x)] on a float. *)
Variable float_repr : float -> str.

(** The text the writer makes of a value; [None] becomes the empty
    string. *)
Definition csv_text_of (v : value) : str :=
  match v with
  | VNone => []
  | VStr s => s
  | VInt z => str_of_int z
  | VFloat x => float_repr x
  end.

(** [{k: r.get(k, "") for k in keys}], as the fields of one record. *)
Definition row_fields (r : row) : list str :=
  map (fun k => csv_text_of (dict_get (row_items r) k (VStr []))) keys.


Variable E : env.

(** What a run leaves: how it ended, and the CSV files it wrote, each with
    its path and the text it holds. *)
Record outcome : Type := mkOutcome {
  status : result unit;
  written : list (str * str)
}.

(** [str(n)] succeeds on an integer of at most [int_max_str_digits]
    digits. *)
Definition int_fits (z : Z) : bool :=
  Z.of_nat (List.length (str_of_int (Z.abs z))) <=? int_max_str_digits.

(** One [w.writerow]: the writer makes the text of each value, then hands the
    record to the file, which encodes it.  [str] raises [ValueError] on a
    frame of too many digits; the file raises [UnicodeEncodeError] (a kind
    of [ValueError] in Python) on a name that cannot be encoded. *)
Definition writerow (r : row) : result str :=
  if match frame r with Some z => int_fits z | None => true end
  then
    if encodable E (filename r) then Ok (csv_record (row_fields r))
    else Raise UnicodeEncodeError
  else Raise ValueError.

(** The loop of [write_csv] over the rows.  [text] is what the file holds so
    far; when a row raises, the [with] block closes the file, which keeps
    [text]. *)
Fixpoint write_rows (text : str) (rows : list row) : result unit * str :=
  match rows with
  | [] => (Ok tt, text)
  | r :: rows' =>
      match writerow r with
      | Ok rec => write_rows (text ++ rec) rows'
      | Raise e => (Raise e, text)
      end
  end.

(** [write_csv]: nothing is written when the file cannot be opened; else the
    file holds the header and the records written before the end or before
    the first failure. *)
Definition write_csv (rows : list row) (out_csv : str) : outcome :=
  if open_write E out_csv
  then let (s, text) := write_rows (csv_record keys) rows in
       mkOutcome s [(out_csv, text)]
  else mkOutcome (Raise OSError) [].

Variable hypot : float -> float -> float.

(** [main], up to and including [write_csv].  The optional plot that
    follows is wrapped in a [try] and changes neither. *)
Definition main (a : args) : outcome :=
  match collect_rows hypot E a with
  | Raise e => mkOutcome (Raise e) []
  | Ok rows => write_csv rows (out a)
  end.

End Writer.

(** ** Reading the CSV back: [csv.reader] in the default dialect *)

Inductive rstate : Type :=
| START_RECORD
| START_FIELD
| IN_FIELD
| IN_QUOTED_FIELD
| QUOTE_IN_QUOTED_FIELD
| EAT_CRNL.

Definition rstate_eqb (a b : rstate) : bool :=
  match a, b with
  | START_RECORD, START_RECORD | START_FIELD, START_FIELD
  | IN_FIELD, IN_FIELD | IN_QUOTED_FIELD, IN_QUOTED_FIELD
  | QUOTE_IN_QUOTED_FIELD, QUOTE_IN_QUOTED_FIELD | EAT_CRNL, EAT_CRNL => true
  | _, _ => false
  end.

(** The reader: its state, the field being read (in reverse) and the fields
    of the record being read (last first). *)
Record reader : Type := mkReader {
  st : rstate;
  field : str;
  fields : list str
}.

Definition reader_reset : reader := mkReader START_RECORD [] [].

Definition save_field (r : reader) (s : rstate) : reader :=
  mkReader s [] (rev (field r) :: fields r).

(** [csv.field_size_limit()], at its default: the longest field the reader
    takes. *)
Definition field_limit : Z := 131072.

(** A character more in the field: an error when the field is at the
    limit. *)
Definition add_char (r : reader) (c : ascii) (s : rstate) : result reader :=
  if field_limit <=? Z.of_nat (List.length (field r))
  then Raise CsvError
  else Ok (mkReader s (c :: field r) (fields r)).

Definition set_state (r : reader) (s : rstate) : reader :=
  mkReader s (field r) (fields r).

Definition is_newline (c : ascii) : bool := Ascii.eqb c LF || Ascii.eqb c CR.

Definition process_start_field (r : reader) (c : option ascii)
  : result reader :=
  match c with
  | None => Ok (save_field r START_RECORD)
  | Some x =>
      if is_newline x then Ok (save_field r EAT_CRNL)
      else if Ascii.eqb x dquote then Ok (set_state r IN_QUOTED_FIELD)
      else if Ascii.eqb x comma then Ok (save_field r START_FIELD)
      else add_char r x IN_FIELD
  end.

(** One step of the reader; [None] is the end of a line. *)
Definition process_char (r : reader) (c : option ascii) : result reader :=
  match st r with
  | START_RECORD =>
      match c with
      | None => Ok r
      | Some x =>
          if is_newline x then Ok (set_state r EAT_CRNL)
          else process_start_field r c
      end
  | START_FIELD => process_start_field r c
  | IN_FIELD =>
      match c with
      | None => Ok (save_field r START_RECORD)
      | Some x =>
          if is_newline x then Ok (save_field r EAT_CRNL)
          else if Ascii.eqb x comma then Ok (save_field r START_FIELD)
          else add_char r x IN_FIELD
      end
  | IN_QUOTED_FIELD =>
      match c with
      | None => Ok r
      | Some x =>
          if Ascii.eqb x dquote then Ok (set_state r QUOTE_IN_QUOTED_FIELD)
          else add_char r x IN_QUOTED_FIELD
      end
  | QUOTE_IN_QUOTED_FIELD =>
      match c with
      | None => Ok (save_field r START_RECORD)
      | Some x =>
          if Ascii.eqb x dquote then add_char r x IN_QUOTED_FIELD
          else if Ascii.eqb x comma then Ok (save_field r START_FIELD)
          else if is_newline x then Ok (save_field r EAT_CRNL)
          else add_char r x IN_FIELD
      end
  | EAT_CRNL =>
      match c with
      | None => Ok (set_state r START_RECORD)
      | Some x => if is_newline x then Ok r else Raise CsvError
      end
  end.



Fixpoint feed_line (r : reader) (line : str) : result reader :=
  match line with
  | [] => process_char r None
  | c :: line' => r' <- process_char r (Some c) ;; feed_line r' line'
  end.

(** The records of a text: the reader takes lines until it is back at the
    start of a record, and gives the fields read; at the end of the input a
    record under way is given as it stands. *)
Fixpoint read_records (r : reader) (recs : list (list str))
         (lines : list str) : result (list (list str)) :=
  match lines with
  | [] =>
      match field r, st r with
      | _ :: _, _ | _, IN_QUOTED_FIELD =>
          Ok (recs ++ [rev (fields (save_field r START_RECORD))])
      | _, _ => Ok recs
      end
  | line :: lines' =>
      r' <- feed_line r line ;;
      if rstate_eqb (st r') START_RECORD
      then read_records reader_reset (recs ++ [rev (fields r')]) lines'
      else read_records r' recs lines'
  end.


(** ** A reference [hypot] and a reference [str(x)]

    The pipeline takes [math.hypot] and the text form of a float as
    parameters.  These two functions instantiate them: the square root of the
    exact sum of the squares, rounded once, with the special cases of the C
    standard; and the shortest decimal text that reads back as the same
    float. *)

Definition hypot_ref (x y : float) : float :=
  match x, y with
  | S754_infinity _, _ | _, S754_infinity _ => S754_infinity false
  | S754_nan, _ | _, S754_nan => S754_nan
  | S754_zero _, _ => fabs y
  | _, S754_zero _ => fabs x
  | S754_finite _ mx ex, S754_finite _ my ey =>
      let e := Z.min (2 * ex) (2 * ey) in
      let m := Z.shiftl (Zpos (mx * mx)) (2 * ex - e)
               + Z.shiftl (Zpos (my * my)) (2 * ey - e) in
      match m with
      | Zpos p => SFsqrt prec emax (S754_finite false p e)
      | _ => S754_nan
      end
  end.

(** Number of decimal digits of a positive integer. *)
Definition ndigits (z : Z) : Z := Z.of_nat (List.length (str_of_int z)).

(** The two [n]-digit decimals [d * 10^k] around [m * 2^e], with the one that
    is nearer first. *)
Definition decimal_neighbours (m e : Z) (n : Z) : (Z * Z) * Z :=
  let p := ndigits (Z.shiftl (m * 10 ^ 400) e) - 401 in
  let k := p - n + 1 in
  let num := m * 2 ^ (Z.max e 0) * 10 ^ (Z.max (- k) 0) in
  let den := 2 ^ (Z.max (- e) 0) * 10 ^ (Z.max k 0) in
  let lo := num / den in
  let r := num mod den in
  if 2 * r <=? den then ((lo, lo + 1), k) else ((lo + 1, lo), k).

(** The shortest digits that read back as [m * 2^e]: tries 1, 2, ... digits;
    [fuel] bounds the number of tries (17 digits always suffice). *)
Fixpoint shortest_digits (fuel : nat) (n : Z) (m : positive) (e : Z) : Z * Z :=
  let '((a, b), k) := decimal_neighbours (Zpos m) e n in
  let back d := SFeqb (float_of_decimal false d k) (S754_finite false m e) in
  match fuel with
  | O => (a, k)
  | S fuel' =>
      if back a then (a, k)
      else if back b then (b, k)
      else shortest_digits fuel' (n + 1) m e
  end.

Fixpoint strip_zeros_rev (s : str) : str :=
  match s with
  | c :: s' => if Ascii.eqb c "0" then strip_zeros_rev s' else s
  | [] => []
  end.

Definition zeros (n : Z) : str := repeat "0"%char (Z.to_nat n).

(** The layout of [repr]: plain notation when the decimal point falls within
    [-3 .. 16] digits of the first digit, else an exponent of at least two
    digits. *)
Definition layout_digits (ds : str) (decpt : Z) : str :=
  let n := Z.of_nat (List.length ds) in
  if (decpt <=? -4) || (16 <? decpt)
  then
    let ex := decpt - 1 in
    let mant := match ds with
                | [d] => [d]
                | d :: rest => d :: "."%char :: rest
                | [] => []
                end in
    let es := str_of_int (Z.abs ex) in
    mant ++ [ "e"%char; if ex <? 0 then "-"%char else "+"%char ]
         ++ (if Z.abs ex <? 10 then "0"%char :: es else es)
  else if decpt <=? 0 then L "0." ++ zeros (- decpt) ++ ds
  else if n <=? decpt then ds ++ zeros (decpt - n) ++ L ".0"
  else firstn (Z.to_nat decpt) ds ++ "."%char :: skipn (Z.to_nat decpt) ds.

Definition float_repr_ref (x : float) : str :=
  match x with
  | S754_nan => L "nan"
  | S754_infinity s => if s then L "-inf" else L "inf"
  | S754_zero s => if s then L "-0.0" else L "0.0"
  | S754_finite s m e =>
      let (d, k) := shortest_digits 17 1 m e in
      let all := str_of_int d in
      let ds := rev (strip_zeros_rev (rev all)) in
      (if s then [ "-"%char ] else [])
        ++ layout_digits ds (Z.of_nat (List.length all) + k)
  end.

(** ** The series handed to the plot

    After the CSV is written, [main] builds two lists from the rows that have
    a distance: [times], the time of the row or else its frame, and [dvals],
    the distance.  Drawing them is left to the plotting library. *)

Definition has_distance (r : row) : bool :=
  match d_px r with Some _ => true | None => false end.

Definition plot_times (rows : list row) : list value :=
  map (fun r => match time_s r with
                | Some t => VFloat t
                | None => opt_int (frame r)
                end)
      (filter has_distance rows).

Definition plot_dvals (rows : list row) : list value :=
  map (fun r => opt_float (d_px r)) (filter has_distance rows).

(** * Statements

    Definitions on the side of the specification: properties worded as the
    specification words them, to be compared with the code. *)

(** The grouping as the specification words it: by position in the
    remaining values. *)
Module GroupingSpec.

Definition dflt : float := S754_nan.

Definition triplet_at (rem : list float) (i : nat) : keypoint :=
  (nth (3 * i) rem dflt, nth (3 * i + 1) rem dflt,
   Some (nth (3 * i + 2) rem dflt)).

Definition pair_at (rem : list float) (i : nat) : keypoint :=
  (nth (2 * i) rem dflt, nth (2 * i + 1) rem dflt, None).

(** No value: no keypoint.  A multiple of three: a third as many triplets.
    Else a multiple of two: half as many pairs.  Else: the pairs that fit,
    the last value left over. *)
Definition keypoints_of (rem : list float) : list keypoint :=
  let n := List.length rem in
  if (n =? 0)%nat then []
  else if (n mod 3 =? 0)%nat then map (triplet_at rem) (seq 0 (n / 3))
  else if (n mod 2 =? 0)%nat then map (pair_at rem) (seq 0 (n / 2))
  else map (pair_at rem) (seq 0 (n / 2)).

End GroupingSpec.

(** The tokens of a line and their values, when every token converts. *)
Definition line_values (line : str) : result (list float) :=
  mapM py_float (split_ws (strip line)).

(** C1 as the specification states it: whenever a line has at least five
    tokens and all of them convert, the parser returns a record whose
    keypoints are grouped by position. *)
Definition token_routing_as_stated : Prop :=
  forall (line : str) (vals : list float),
    line_values line = Ok vals ->
    (5 <= List.length vals)%nat ->
    exists det,
      parse_label_line line = Ok (Some det)
      /\ kps det = GroupingSpec.keypoints_of (skipn 5 vals).

(** Presence of the fields of a row. *)
Definition present {A : Type} (o : option A) : Prop := exists x, o = Some x.

Definition absent {A : Type} (o : option A) : Prop := o = None.

Definition coords_present (r : row) : Prop :=
  present (nose_x r) /\ present (nose_y r)
  /\ present (mouth_x r) /\ present (mouth_y r).


Definition six_present (r : row) : Prop :=
  coords_present r /\ present (d_px r) /\ present (d_norm r).

Definition six_absent (r : row) : Prop :=
  absent (nose_x r) /\ absent (nose_y r) /\ absent (mouth_x r)
  /\ absent (mouth_y r) /\ absent (d_px r) /\ absent (d_norm r).

(** A row comes from a detection when the assembler builds it from a record
    the parser returned for some line. *)
Definition row_from (hypot : float -> float -> float) (w h : Z) (f : float)
           (det : detection) (r : row) : Prop :=
  exists fn line,
    parse_label_line line = Ok (Some det)
    /\ assemble_row hypot fn det w h f = Ok r.

Definition from_some_line (hypot : float -> float -> float) (w h : Z)
           (f : float) (r : row) : Prop :=
  exists det, row_from hypot w h f det r.

Definition opt_list {A : Type} (o : option A) : list A :=
  match o with Some x => [x] | None => [] end.

(** The sources, as the specification describes them: what each file and
    each member contributes, in order. *)
Section Contributions.

Variable hypot : float -> float -> float.
Variable E : env.
Variables (w h : Z) (f : float).

(** The rows of a text: one per line that gives one, in line order. *)
Definition rows_by_line (fn : str) (content : str) : result (list row) :=
  os <- mapM (row_of_line hypot fn w h f) (splitlines (strip content)) ;;
  Ok (flat_map opt_list os).

(** A file of the directory: its rows, or none when reading or processing it
    raises. *)
Definition file_rows (dir : str) (fn : str) : list row :=
  match process_txt_handle hypot fn (read_text E (path_join dir fn)) w h f with
  | Ok rows => rows
  | Raise _ => []
  end.

(** A member of an archive. *)
Definition member_rows (m : tar_member) : result (list row) :=
  match m_extract m with
  | None => Ok []
  | Some txt => process_txt_handle hypot (m_name m) txt w h f
  end.

End Contributions.

(** Order by name. *)
Definition name_le {A : Type} (key : A -> str) (a b : A) : Prop :=
  str_le (key a) (key b).

(** ** A small world for the examples

    A directory [labels] with three label files (one of them unreadable) and
    a file that is not a label file; an archive [chunk.tar.gz] with two
    members and a directory entry; an archive [broken.tar.gz] whose first
    member does not decode; no other path exists. *)
Module Demo.

Definition line_kp : str := L "0 0.5 0.5 0.1 0.1 0.5 0.5 0.9 0.5 0.6 0.8".
Definition line_box : str := L "1 0.4 0.4 0.2 0.2".

(** The record of [line_kp]. *)
Definition conf9 : float := S754_finite false 8106479329266893 (-53).
Definition conf8 : float := S754_finite false 7205759403792794 (-53).
Definition tenth : float := S754_finite false 7205759403792794 (-56).

Definition det_kp : detection :=
  mkDetection 0 (S754_finite false 4503599627370496 (-53))
              (S754_finite false 4503599627370496 (-53)) tenth tenth
              [ (S754_finite false 4503599627370496 (-53),
                 S754_finite false 4503599627370496 (-53), Some conf9);
                (S754_finite false 4503599627370496 (-53),
                 S754_finite false 5404319552844595 (-53), Some conf8) ].

Definition dir_names : list str :=
  [ L "video_00042.txt"; L "notes.md"; L "clip_7.txt"; L "bad.txt" ].

Definition chunk : list tar_member :=
  [ mkMember (L "z_1.txt") true (Some (Ok line_box));
    mkMember (L "sub") false None;
    mkMember (L "a_2.txt") true (Some (Ok line_kp)) ].

Definition broken : list tar_member :=
  [ mkMember (L "a_1.txt") true (Some (Raise UnicodeDecodeError));
    mkMember (L "b_2.txt") true (Some (Ok line_kp)) ].

Definition world : env :=
  mkEnv
    (fun d => if str_eqb d (L "labels") then Ok dir_names else Raise OSError)
    (fun p =>
       if str_eqb p (L "labels/video_00042.txt")
       then Ok (line_kp ++ [LF] ++ L "oops" ++ [LF] ++ line_box ++ [LF])
       else if str_eqb p (L "labels/clip_7.txt") then Ok line_box
       else if str_eqb p (L "labels/bad.txt") then Raise UnicodeDecodeError
       else Raise OSError)
    (fun p =>
       if str_eqb p (L "chunk.tar.gz") then Ok chunk
       else if str_eqb p (L "broken.tar.gz") then Ok broken
       else Raise OSError)
    (fun p => str_eqb p (L "dists.csv"))
    (fun _ => true).

Definition fps30 : float := round_of_Z 30.

Definition run_args (dir : option str) (archives : option (list str)) : args :=
  mkArgs dir archives (L "dists.csv") 1080 1920 fps30 None.

(** The values of the example rows. *)
Definition f540 : float := round_of_Z 540.
Definition f960 : float := round_of_Z 960.
Definition f1152 : float := round_of_Z 1152.
Definition f192 : float := round_of_Z 192.
Definition diag : float := hypot_ref (round_of_Z 1080) (round_of_Z 1920).

Definition row_kp (fn : str) (n : Z) (t : float) : row :=
  mkRow fn (Some n) (Some t) (Some f540) (Some f960) (Some f540) (Some f1152)
        (Some f192) (Some (fdiv f192 diag)).

Definition row_box (fn : str) (n : Z) (t : float) : row :=
  mkRow fn (Some n) (Some t) None None None None None None.

Definition t42 : float := fdiv (round_of_Z 42) fps30.
Definition t7 : float := fdiv (round_of_Z 7) fps30.
Definition t1 : float := fdiv (round_of_Z 1) fps30.
Definition t2 : float := fdiv (round_of_Z 2) fps30.

Definition dir_rows : list row :=
  [ row_box (L "clip_7.txt") 7 t7;
    row_kp (L "video_00042.txt") 42 t42;
    row_box (L "video_00042.txt") 42 t42 ].

Definition chunk_rows : list row :=
  [ row_kp (L "a_2.txt") 2 t2; row_box (L "z_1.txt") 1 t1 ].

End Demo.

(** The members [process_archive] selects. *)
Definition selected (m : tar_member) : bool := m_isfile m && is_txt (m_name m).

(** An archive contributes the rows of its selected members, by member
    name; the rows name their member, so they are in name order. *)
Definition archive_in_member_order (hypot : float -> float -> float) (E : env)
           (w h : Z) (f : float) (p : str) (rows : list row) : Prop :=
  exists tar ms rss,
    tar_open E p = Ok tar
    /\ StronglySorted (name_le m_name) ms
    /\ Permutation ms (filter selected tar)
    /\ Forall2 (fun m rs => member_rows hypot w h f m = Ok rs) ms rss
    /\ rows = List.concat rss
    /\ StronglySorted (name_le filename) rows.

(** The directory contributes the rows of its label files, by file name. *)
Definition dir_in_name_order (hypot : float -> float -> float) (E : env)
           (w h : Z) (f : float) (d : str) (rows : list row) : Prop :=
  exists names files,
    listdir E d = Ok names
    /\ StronglySorted (name_le (fun x => x)) files
    /\ Permutation files (filter is_txt names)
    /\ rows = flat_map (file_rows hypot E w h f d) files
    /\ StronglySorted (name_le filename) rows.

(** A text contributes one row per line that gives one, in line order. *)
Definition text_in_line_order (hypot : float -> float -> float)
           (w h : Z) (f : float) (fn content : str) (rows : list row) : Prop :=
  exists os,
    Forall2 (fun line o => row_of_line hypot fn w h f line = Ok o)
            (splitlines (strip content)) os
    /\ rows = flat_map opt_list os.

(** ** The worked example of the specification *)

(** The floats 0.5 and 0.6, as [float] reads them. *)
Definition half : float := S754_finite false 4503599627370496 (-53).
Definition six_tenths : float := S754_finite false 5404319552844595 (-53).

Definition f1080 : float := round_of_Z 1080.
Definition f1920 : float := round_of_Z 1920.

(** What the C standard asks of [hypot] when the first argument is zero. *)
Definition hypot_zero_left (hypot : float -> float -> float) : Prop :=
  forall y, hypot (S754_zero false) y = fabs y.

(** ** Confidence positions *)

(** Token [i] of a line of triplets is a confidence when it is the third of
    its group after the five leading tokens. *)
Definition conf_position (i : nat) : bool :=
  (5 <=? i)%nat && ((i - 5) mod 3 =? 2)%nat.

(** Two token lists that differ at most at confidence positions. *)
Definition same_but_confidence (t1 t2 : list str) : Prop :=
  List.length t1 = List.length t2
  /\ forall i, conf_position i = false -> nth_error t1 i = nth_error t2 i.

(** Keypoint lists with the same coordinates. *)
Definition same_xy (k1 k2 : list keypoint) : Prop :=
  Forall2 (fun a b => fst a = fst b) k1 k2.

(** A second line for the examples: [Demo.line_kp] with other
    confidences. *)
Definition line_kp_other_conf : str :=
  L "0 0.5 0.5 0.1 0.1 0.5 0.5 0.25 0.5 0.6 nan".

(** ** The reader as one pass over the text

    [csv_reader] splits the text into lines and feeds them to the reader one
    by one.  [scan] does the same in one pass: it feeds the characters as
    they come and an end of line after LF, after CR LF, and after a CR that
    is not followed by LF. *)

Inductive line_mode : Type :=
| LineStart   (* no character of the current line has been fed *)
| LineMid     (* some have, the last one is not CR *)
| LineCR.     (* the last one fed is CR: the line ends here unless LF follows *)


(** The end of a line: the reader gets it, and gives a record if it is back
    at the start of a record. *)
Definition end_line (r : reader) (recs : list (list str))
  : result (reader * list (list str)) :=
  r' <- process_char r None ;;
  Ok (if rstate_eqb (st r') START_RECORD
      then (reader_reset, recs ++ [rev (fields r')])
      else (r', recs)).

(** The end of the input. *)
Definition end_input (r : reader) (recs : list (list str))
  : result (list (list str)) :=
  match field r, st r with
  | _ :: _, _ | _, IN_QUOTED_FIELD =>
      Ok (recs ++ [rev (fields (save_field r START_RECORD))])
  | _, _ => Ok recs
  end.

Fixpoint scan (mode : line_mode) (r : reader) (recs : list (list str))
         (s : str) : result (list (list str)) :=
  match s with
  | [] =>
      match mode with
      | LineStart => end_input r recs
      | _ => x <- end_line r recs ;; end_input (fst x) (snd x)
      end
  | c :: s' =>
      x <- match mode with
           | LineCR => if Ascii.eqb c LF then Ok (r, recs) else end_line r recs
           | _ => Ok (r, recs)
           end ;;
      r1 <- process_char (fst x) (Some c) ;;
      if Ascii.eqb c LF
      then y <- end_line r1 (snd x) ;; scan LineStart (fst y) (snd y) s'
      else if Ascii.eqb c CR then scan LineCR r1 (snd x) s'
      else scan LineMid r1 (snd x) s'
  end.






Definition header : list str :=
  [ L "filename"; L "frame"; L "time_s"; L "nose_x"; L "nose_y";
    L "mouth_x"; L "mouth_y"; L "d_px"; L "d_norm" ].




(** Normalized coordinates out of the range 0..1, for the examples: 1.5 and
    -0.25. *)
Definition one_and_half : float := S754_finite false 6755399441055744 (-52).
Definition minus_quarter : float := S754_finite true 4503599627370496 (-54).

(** ** Further statements *)

(** The last segment the fallback of [extract_frame_index] looks at. *)
Definition last_segment (fname : str) : str :=
  last (split_on "_" (before_last "." (basename fname))) [].

(** A value of the plot's horizontal axis is a time, a frame or nothing. *)
Definition is_time_or_none (v : value) : Prop :=
  match v with VFloat _ | VNone => True | _ => False end.

Definition is_frame_or_none (v : value) : Prop :=
  match v with VInt _ | VNone => True | _ => False end.

Definition is_ok {A : Type} (r : result A) : bool :=
  match r with Ok _ => true | Raise _ => false end.

(** The label files of a directory that are read and processed without an
    exception. *)
Definition file_ok (hypot : float -> float -> float) (E : env) (w h : Z)
           (f : float) (d fn : str) : bool :=
  is_ok (process_txt_handle hypot fn (read_text E (path_join d fn)) w h f).

(** A line is blank when it holds white space only. *)
Definition blank (line : str) : bool :=
  match strip line with [] => true | _ => false end.

(** A line the parser accepts: at least five tokens, all numeric. *)
Definition accepted (line : str) : bool :=
  negb (List.length (split_ws (strip line)) <? 5)%nat
  && is_ok (line_values line).


Definition is_float_value (v : value) : Prop :=
  match v with VFloat _ => True | _ => False end.

(** A string that does not end with a decimal digit. *)
Definition ends_without_digit (p : str) : Prop :=
  match rev p with
  | c :: _ => isdecimal c = false
  | [] => True
  end.

Definition no_slash (s : str) : Prop :=
  forall c, In c s -> Ascii.eqb c "/" = false.

Definition all_decimal (s : str) : bool := forallb isdecimal s.

Definition no_char (x : ascii) (s : str) : Prop :=
  forall c, In c s -> Ascii.eqb c x = false.

(** More digits than [int] reads. *)
Definition too_long (s : str) : bool :=
  int_max_str_digits <? Z.of_nat (List.length s).



(** * Properties *)

(** ** Generalities on [result] *)

Lemma mapM_length {A B : Type} (f : A -> result B) (l : list A) (bs : list B) :
  mapM f l = Ok bs -> List.length bs = List.length l.
Proof.
  revert bs; induction l as [|a l IH]; simpl; intros bs H.
  - now inversion H.
  - destruct (f a) as [b|e]; simpl in H; [|discriminate].
    destruct (mapM f l) as [bs'|e]; simpl in H; [|discriminate].
    inversion H; subst; simpl; f_equal; now apply IH.
Qed.

Lemma mapM_nth_error {A B : Type} (f : A -> result B) (l : list A)
      (bs : list B) (i : nat) (a : A) :
  mapM f l = Ok bs -> nth_error l i = Some a ->
  exists b, f a = Ok b /\ nth_error bs i = Some b.
Proof.
  revert bs i; induction l as [|x l IH]; simpl; intros bs i H Hi.
  - destruct i; discriminate.
  - destruct (f x) as [b|e] eqn:Hx; simpl in H; [|discriminate].
    destruct (mapM f l) as [bs'|e]; simpl in H; [|discriminate].
    inversion H; subst; clear H.
    destruct i as [|i]; simpl in *.
    + inversion Hi; subst; eauto.
    + eapply IH; eauto.
Qed.

(** ** The line parser *)

Lemma read_triplets_by_position (k : nat) : forall rem,
  List.length rem = (3 * k)%nat ->
  read_triplets rem = map (GroupingSpec.triplet_at rem) (seq 0 k).
Proof.
  induction k as [|k IH]; intros rem Hlen.
  - destruct rem; [reflexivity | simpl in Hlen; lia].
  - destruct rem as [|x [|y [|c rem]]]; simpl in Hlen; try lia.
    change (read_triplets (x :: y :: c :: rem))
      with ((x, y, Some c) :: read_triplets rem).
    rewrite (IH rem) by lia.
    rewrite <- cons_seq, <- seq_shift, map_cons, map_map.
    f_equal. apply map_ext; intros i.
    unfold GroupingSpec.triplet_at.
    replace (3 * S i)%nat with (S (S (S (3 * i)))) by lia.
    reflexivity.
Qed.

Lemma read_pairs_by_position (k : nat) : forall rem,
  (List.length rem = 2 * k \/ List.length rem = 2 * k + 1)%nat ->
  read_pairs rem = map (GroupingSpec.pair_at rem) (seq 0 k).
Proof.
  induction k as [|k IH]; intros rem Hlen.
  - destruct rem as [|x [|y rem]]; simpl in Hlen; try reflexivity; lia.
  - destruct rem as [|x [|y rem]]; simpl in Hlen; try lia.
    change (read_pairs (x :: y :: rem)) with ((x, y, None) :: read_pairs rem).
    rewrite (IH rem) by lia.
    rewrite <- cons_seq, <- seq_shift, map_cons, map_map.
    f_equal. apply map_ext; intros i.
    unfold GroupingSpec.pair_at.
    replace (2 * S i)%nat with (S (S (2 * i))) by lia.
    reflexivity.
Qed.

Lemma group_keypoints_by_position (rem : list float) :
  group_keypoints rem = GroupingSpec.keypoints_of rem.
Proof.
  unfold group_keypoints, GroupingSpec.keypoints_of.
  destruct rem as [|v rem']; [reflexivity|].
  set (rem := v :: rem'). set (n := List.length rem).
  assert (Hn : n <> 0%nat) by (subst n rem; simpl; lia).
  destruct (Nat.eqb_spec n 0) as [Hz|_]; [contradiction|].
  assert (H3 : Z.of_nat n mod 3 = Z.of_nat (n mod 3))
    by (rewrite Nat2Z.inj_mod; reflexivity).
  assert (H2 : Z.of_nat n mod 2 = Z.of_nat (n mod 2))
    by (rewrite Nat2Z.inj_mod; reflexivity).
  rewrite H3, H2.
  pose proof (Nat.div_mod_eq n 3) as D3.
  pose proof (Nat.div_mod_eq n 2) as D2.
  pose proof (Nat.mod_upper_bound n 2 ltac:(lia)) as B2.
  destruct (Nat.eqb_spec (n mod 3) 0) as [E3|E3].
  - rewrite E3; simpl (Z.of_nat 0 =? 0).
    apply read_triplets_by_position. fold n. lia.
  - destruct (Z.eqb_spec (Z.of_nat (n mod 3)) 0) as [?|_]; [lia|].
    destruct (Nat.eqb_spec (n mod 2) 0) as [E2|E2].
    + rewrite E2; simpl (Z.of_nat 0 =? 0).
      apply read_pairs_by_position. fold n. lia.
    + destruct (Z.eqb_spec (Z.of_nat (n mod 2)) 0) as [?|_]; [lia|].
      apply read_pairs_by_position. fold n. lia.
Qed.

(** C1, counterexample: on the line [1e999 0 0 0 0] the five tokens convert
    (the first one to an infinity) and the parser raises [OverflowError]
    instead of returning a record with no keypoint. *)
Lemma token_routing_fails_on_huge_class :
  line_values (L "1e999 0 0 0 0")
  = Ok [S754_infinity false; S754_zero false; S754_zero false;
        S754_zero false; S754_zero false]
  /\ parse_label_line (L "1e999 0 0 0 0") = Raise OverflowError
  /\ ~ token_routing_as_stated.
Proof.
  assert (Hv : line_values (L "1e999 0 0 0 0")
               = Ok [S754_infinity false; S754_zero false; S754_zero false;
                     S754_zero false; S754_zero false])
    by (vm_compute; reflexivity).
  assert (Hp : parse_label_line (L "1e999 0 0 0 0") = Raise OverflowError)
    by (vm_compute; reflexivity).
  repeat split; trivial.
  intros H. destruct (H _ _ Hv) as [det [Hd _]]; [simpl; lia|].
  rewrite Hp in Hd. discriminate.
Qed.

(** C1, amended: for every line with at least five tokens that all convert
    and whose first value is finite, the parser returns the record made of
    the truncated first value, the next four values, and the remaining values
    grouped by position: none, triplets when their number is a multiple of
    three, else pairs without confidence when it is even, else the pairs that
    fit with the last value dropped. *)
Theorem parse_label_line_groups_by_position :
  forall (line : str) (vals : list float),
    line_values line = Ok vals ->
    (5 <= List.length vals)%nat ->
    is_finite (nth 0 vals S754_nan) = true ->
    exists c,
      int_of_float (nth 0 vals S754_nan) = Ok c
      /\ parse_label_line line
         = Ok (Some (mkDetection c (nth 1 vals S754_nan) (nth 2 vals S754_nan)
                                 (nth 3 vals S754_nan) (nth 4 vals S754_nan)
                                 (GroupingSpec.keypoints_of (skipn 5 vals)))).
Proof.
  intros line vals Hv Hlen Hfin.
  unfold line_values in Hv. unfold parse_label_line.
  pose proof (mapM_length _ _ _ Hv) as Hl.
  destruct (Nat.ltb_spec (List.length (split_ws (strip line))) 5) as [Hlt|_];
    [lia|].
  rewrite Hv.
  destruct vals as [|v0 [|v1 [|v2 [|v3 [|v4 rem]]]]]; simpl in Hlen; try lia.
  simpl in Hfin. simpl nth. simpl skipn.
  rewrite <- group_keypoints_by_position.
  destruct v0 as [s|s| |s m e]; try discriminate; simpl; eauto.
Qed.

(** A line the amended C1 applies to: two triplets. *)
Lemma parse_label_line_groups_by_position_witness :
  exists c,
    int_of_float (S754_zero false) = Ok c
    /\ parse_label_line (L "0 0.5 0.5 0.1 0.1 0.5 0.5 0.9 0.5 0.6 0.8")
       = Ok (Some (mkDetection c
           (S754_finite false 4503599627370496 (-53))
           (S754_finite false 4503599627370496 (-53))
           (S754_finite false 7205759403792794 (-56))
           (S754_finite false 7205759403792794 (-56))
           (GroupingSpec.keypoints_of
              [S754_finite false 4503599627370496 (-53);
               S754_finite false 4503599627370496 (-53);
               S754_finite false 8106479329266893 (-53);
               S754_finite false 4503599627370496 (-53);
               S754_finite false 5404319552844595 (-53);
               S754_finite false 7205759403792794 (-53)]))).
Proof.
  apply (parse_label_line_groups_by_position
           (L "0 0.5 0.5 0.1 0.1 0.5 0.5 0.9 0.5 0.6 0.8")
           [S754_zero false;
            S754_finite false 4503599627370496 (-53);
            S754_finite false 4503599627370496 (-53);
            S754_finite false 7205759403792794 (-56);
            S754_finite false 7205759403792794 (-56);
            S754_finite false 4503599627370496 (-53);
            S754_finite false 4503599627370496 (-53);
            S754_finite false 8106479329266893 (-53);
            S754_finite false 4503599627370496 (-53);
            S754_finite false 5404319552844595 (-53);
            S754_finite false 7205759403792794 (-53)]).
  - vm_compute; reflexivity.
  - simpl; lia.
  - reflexivity.
Defined.

Lemma parse_label_line_few_tokens (line : str) :
  (List.length (split_ws (strip line)) < 5)%nat ->
  parse_label_line line = Ok None.
Proof.
  intros H. unfold parse_label_line.
  destruct (Nat.ltb_spec (List.length (split_ws (strip line))) 5); [easy|lia].
Qed.

Lemma parse_label_line_bad_token (line : str) (e : exn) :
  line_values line = Raise e -> parse_label_line line = Ok None.
Proof.
  unfold line_values, parse_label_line. intros ->.
  now destruct (List.length (split_ws (strip line)) <? 5)%nat.
Qed.

(** The parser raises exactly on the lines whose tokens all convert and
    whose first value is a NaN or an infinity. *)
Lemma parse_label_line_raises_iff (line : str) :
  raises (parse_label_line line) <->
  exists vals, line_values line = Ok vals
               /\ (5 <= List.length vals)%nat
               /\ is_finite (nth 0 vals S754_nan) = false.
Proof.
  split.
  - intros [e He]. unfold parse_label_line in He.
    destruct (Nat.ltb_spec (List.length (split_ws (strip line))) 5) as [Hlt|Hge];
      [discriminate|].
    destruct (mapM py_float (split_ws (strip line))) as [vals|e'] eqn:Hv;
      [|discriminate].
    exists vals. pose proof (mapM_length _ _ _ Hv) as Hl.
    repeat split; trivial; [lia|].
    destruct vals as [|v0 [|v1 [|v2 [|v3 [|v4 rem]]]]]; simpl in Hl; try lia.
    destruct v0; simpl in *; try discriminate; reflexivity.
  - intros [vals [Hv [Hlen Hinf]]].
    destruct (is_finite (nth 0 vals S754_nan)) eqn:Hf; [discriminate|].
    unfold line_values in Hv. unfold parse_label_line.
    pose proof (mapM_length _ _ _ Hv) as Hl.
    destruct (Nat.ltb_spec (List.length (split_ws (strip line))) 5) as [Hlt|_];
      [lia|].
    rewrite Hv.
    destruct vals as [|v0 [|v1 [|v2 [|v3 [|v4 rem]]]]]; simpl in Hlen; try lia.
    destruct v0; simpl in Hf; try discriminate; simpl; red; eauto.
Qed.

(** C2, the failing line: [nan 0 0 0 0] has five tokens that all convert, and
    [int(vals[0])], which is outside the [try], raises [ValueError]; the
    parser does not return the skip sentinel. *)
Theorem parse_label_line_raises_on_nan_class :
  line_values (L "nan 0 0 0 0")
  = Ok [S754_nan; S754_zero false; S754_zero false; S754_zero false;
        S754_zero false]
  /\ parse_label_line (L "nan 0 0 0 0") = Raise ValueError.
Proof.
  split; vm_compute; reflexivity.
Qed.

(** ** The loops, as maps *)

Lemma mapM_Forall2 {A B : Type} (f : A -> result B) (l : list A) (bs : list B) :
  mapM f l = Ok bs -> Forall2 (fun a b => f a = Ok b) l bs.
Proof.
  revert bs; induction l as [|a l IH]; simpl; intros bs H.
  - inversion H; constructor.
  - destruct (f a) as [b|e] eqn:Ha; simpl in H; [|discriminate].
    destruct (mapM f l) as [bs'|e]; simpl in H; [|discriminate].
    inversion H; subst. constructor; auto.
Qed.

Lemma mapM_raises {A B : Type} (f : A -> result B) (l : list A) (a : A) :
  In a l -> raises (f a) -> raises (mapM f l).
Proof.
  induction l as [|x l IH]; simpl; [easy|].
  intros [->|Hin] Hr.
  - destruct Hr as [e ->]. simpl. red; eauto.
  - destruct (f x); simpl; [|red; eauto].
    destruct (IH Hin Hr) as [e ->]. simpl. red; eauto.
Qed.

Section Loops.

Variable hypot : float -> float -> float.
Variable E : env.
Variables (w h : Z) (f : float).

Lemma loop_lines_eq (fn : str) (text : list str) : forall rows0,
  loop_lines hypot fn w h f rows0 text
  = (os <- mapM (row_of_line hypot fn w h f) text ;;
     Ok (rows0 ++ flat_map opt_list os)).
Proof.
  induction text as [|line text IH]; intros rows0; simpl.
  - now rewrite app_nil_r.
  - destruct (row_of_line hypot fn w h f line) as [o|e]; simpl; [|reflexivity].
    rewrite IH.
    destruct (mapM (row_of_line hypot fn w h f) text) as [os|e]; simpl;
      [|reflexivity].
    destruct o; simpl; [now rewrite <- app_assoc | reflexivity].
Qed.

Lemma process_txt_handle_eq (fn content : str) :
  process_txt_handle hypot fn (Ok content) w h f
  = rows_by_line hypot w h f fn content.
Proof.
  unfold process_txt_handle, rows_by_line. simpl. now rewrite loop_lines_eq.
Qed.

Lemma loop_files_eq (dir : str) (files : list str) : forall out0,
  loop_files hypot E dir w h f out0 files
  = out0 ++ flat_map (file_rows hypot E w h f dir) files.
Proof.
  induction files as [|fn files IH]; intros out0; simpl.
  - now rewrite app_nil_r.
  - unfold file_rows at 1.
    destruct (process_txt_handle hypot fn (read_text E (path_join dir fn)) w h f);
      rewrite IH; [now rewrite app_assoc | reflexivity].
Qed.

Lemma loop_members_eq (ms : list tar_member) : forall out0,
  loop_members hypot w h f out0 ms
  = (rss <- mapM (member_rows hypot w h f) ms ;; Ok (out0 ++ List.concat rss)).
Proof.
  induction ms as [|m ms IH]; intros out0; simpl.
  - now rewrite app_nil_r.
  - unfold member_rows at 1.
    destruct (m_extract m) as [txt|]; simpl.
    + destruct (process_txt_handle hypot (m_name m) txt w h f) as [rows|e];
        simpl; [|reflexivity].
      rewrite IH.
      destruct (mapM (member_rows hypot w h f) ms); simpl;
        [now rewrite app_assoc | reflexivity].
    + rewrite IH.
      destruct (mapM (member_rows hypot w h f) ms); reflexivity.
Qed.

Lemma loop_archives_eq (l : list str) : forall rows0,
  loop_archives hypot E w h f rows0 l
  = (rss <- mapM (fun a => process_archive hypot E a w h f) l ;;
     Ok (rows0 ++ List.concat rss)).
Proof.
  induction l as [|a l IH]; intros rows0; simpl.
  - now rewrite app_nil_r.
  - destruct (process_archive hypot E a w h f) as [more|e]; simpl;
      [|reflexivity].
    rewrite IH.
    destruct (mapM (fun a0 => process_archive hypot E a0 w h f) l); simpl;
      [now rewrite app_assoc | reflexivity].
Qed.

End Loops.

Example demo_rows :
  collect_rows hypot_ref Demo.world
    (Demo.run_args (Some (L "labels")) (Some [L "chunk.tar.gz"]))
  = Ok (Demo.dir_rows ++ Demo.chunk_rows).
Proof. vm_compute. reflexivity. Qed.

(** ** Rows and their fields *)


Section RowFacts.

Variable hypot : float -> float -> float.
Variables (w h : Z) (f : float).

Lemma assemble_row_fields (fn : str) (det : detection) (r : row) :
  assemble_row hypot fn det w h f = Ok r ->
  ((2 <= List.length (kps det))%nat -> six_present r)
  /\ ((List.length (kps det) < 2)%nat -> six_absent r).
Proof.
  unfold assemble_row, keypoints_px.
  destruct (Nat.ltb_spec (List.length (kps det)) 2) as [Hlt|Hge].
  - simpl.
    destruct (extract_frame_index fn) as [fr|e]; simpl; [|discriminate].
    destruct (time_of_frame fr f) as [t|e]; simpl; [|discriminate].
    intros H; inversion H; subst; clear H.
    split; [lia|]. intros _. repeat split.
  - destruct (kps det) as [|[[nx ny] c1] [|[[mx my] c2] rest]];
      simpl in Hge; try lia.
    destruct (norm_to_px nx ny w h) as [n|e]; simpl; [|discriminate].
    destruct (norm_to_px mx my w h) as [m|e]; simpl; [|discriminate].
    unfold distances; simpl.
    destruct (float_of_int w) as [fw|e]; simpl; [|discriminate].
    destruct (float_of_int h) as [fh|e]; simpl; [|discriminate].
    destruct (truediv _ _) as [dn|e]; simpl; [|discriminate].
    destruct (extract_frame_index fn) as [fr|e]; simpl; [|discriminate].
    destruct (time_of_frame fr f) as [t|e]; simpl; [|discriminate].
    intros H; inversion H; subst; clear H.
    split; [|simpl; lia]. intros _.
    unfold six_present, coords_present, present; simpl.
    repeat split; eauto.
Qed.




Lemma row_of_line_from (fn line : str) (r : row) :
  row_of_line hypot fn w h f line = Ok (Some r) -> from_some_line hypot w h f r.
Proof.
  unfold row_of_line. destruct (strip line); [discriminate|].
  destruct (parse_label_line line) as [[det|]|e] eqn:Hp; simpl;
    try discriminate.
  destruct (assemble_row hypot fn det w h f) as [r'|e] eqn:Ha; simpl;
    [|discriminate].
  intros H; inversion H; subst. exists det, fn, line. auto.
Qed.

Lemma rows_by_line_from (fn content : str) (rows : list row) :
  rows_by_line hypot w h f fn content = Ok rows -> Forall (from_some_line hypot w h f) rows.
Proof.
  unfold rows_by_line.
  destruct (mapM _ _) as [os|e] eqn:Hm; simpl; [|discriminate].
  intros H; inversion H; subst; clear H.
  apply mapM_Forall2 in Hm.
  induction Hm as [|line o text os Hl _ IH]; simpl; [constructor|].
  apply Forall_app; split; [|exact IH].
  destruct o as [r|]; simpl; constructor; [|constructor].
  eapply row_of_line_from; eauto.
Qed.

Lemma process_txt_handle_from (fn : str) (fh : result str) (rows : list row) :
  process_txt_handle hypot fn fh w h f = Ok rows -> Forall (from_some_line hypot w h f) rows.
Proof.
  destruct fh as [content|e]; [|discriminate].
  rewrite process_txt_handle_eq. apply rows_by_line_from.
Qed.

Lemma concat_mapM_from {A : Type} (g : A -> result (list row)) (l : list A)
      (rss : list (list row)) :
  (forall a rows, g a = Ok rows -> Forall (from_some_line hypot w h f) rows) ->
  mapM g l = Ok rss -> Forall (from_some_line hypot w h f) (List.concat rss).
Proof.
  intros Hg Hm. apply mapM_Forall2 in Hm.
  induction Hm as [|a rs l rss Ha _ IH]; simpl; [constructor|].
  apply Forall_app; split; eauto.
Qed.

Variable E : env.

Lemma process_dir_from (dir : str) (rows : list row) :
  process_dir hypot E dir w h f = Ok rows -> Forall (from_some_line hypot w h f) rows.
Proof.
  unfold process_dir. destruct (listdir E dir) as [names|e]; simpl;
    [|discriminate].
  intros H; inversion H; subst; clear H.
  rewrite loop_files_eq. simpl.
  induction (sorted (fun x => x) (filter is_txt names)) as [|fn files IH];
    simpl; [constructor|].
  apply Forall_app; split; [|exact IH].
  unfold file_rows.
  destruct (process_txt_handle _ _ _ _ _ _) as [rs|e] eqn:Hp; [|constructor].
  eapply process_txt_handle_from; eauto.
Qed.

Lemma process_archive_from (p : str) (rows : list row) :
  process_archive hypot E p w h f = Ok rows -> Forall (from_some_line hypot w h f) rows.
Proof.
  unfold process_archive. destruct (tar_open E p) as [tar|e]; simpl;
    [|discriminate].
  rewrite loop_members_eq.
  destruct (mapM _ _) as [rss|e] eqn:Hm; simpl; [|discriminate].
  intros H; inversion H; subst; clear H. simpl.
  eapply concat_mapM_from; [|exact Hm].
  intros m rs. unfold member_rows. destruct (m_extract m).
  - apply process_txt_handle_from.
  - intros K; inversion K; constructor.
Qed.

End RowFacts.

Lemma collect_rows_from (hypot : float -> float -> float) (E : env) (a : args)
      (rows : list row) :
  collect_rows hypot E a = Ok rows ->
  Forall (from_some_line hypot (width a) (height a) (fps a)) rows.
Proof.
  unfold collect_rows.
  set (P := from_some_line hypot (width a) (height a) (fps a)).
  assert (Hd : forall rows0,
             match labels_dir a with
             | Some (c :: d) =>
                 process_dir hypot E (c :: d) (width a) (height a) (fps a)
             | _ => Ok []
             end = Ok rows0 -> Forall P rows0).
  { intros rows0. destruct (labels_dir a) as [[|c d]|].
    - intros K; inversion K; constructor.
    - apply process_dir_from.
    - intros K; inversion K; constructor. }
  destruct (match labels_dir a with Some (c :: d) => _ | _ => _ end)
    as [rows0|e]; simpl; [|discriminate].
  specialize (Hd rows0 eq_refl).
  assert (Ha : forall l, loop_archives hypot E (width a) (height a) (fps a)
                                       rows0 l = Ok rows -> Forall P rows).
  { intros l. rewrite loop_archives_eq.
    destruct (mapM _ l) as [rss|e] eqn:Hm; simpl; [|discriminate].
    intros K; inversion K; subst; clear K.
    apply Forall_app; split; [exact Hd|].
    eapply concat_mapM_from; [|exact Hm].
    intros p rs. apply process_archive_from. }
  destruct (archive a) as [[|x l]|].
  - intros K; inversion K; subst; exact Hd.
  - exact (Ha (x :: l)).
  - intros K; inversion K; subst; exact Hd.
Qed.



(** ** Sorting by name *)

Lemma str_ltb_asym (a : str) : forall b,
  str_ltb a b = true -> str_ltb b a = false.
Proof.
  induction a as [|x a IH]; intros [|y b]; simpl; try easy.
  destruct (Z.ltb_spec (code x) (code y)), (Z.ltb_spec (code y) (code x));
    try easy; try lia.
  apply IH.
Qed.

Lemma str_le_trans (a : str) : forall b c,
  str_le a b -> str_le b c -> str_le a c.
Proof.
  unfold str_le.
  induction a as [|x a IH]; intros [|y b] [|z c]; simpl; try easy.
  destruct (Z.ltb_spec (code y) (code x)), (Z.ltb_spec (code x) (code y)),
    (Z.ltb_spec (code z) (code y)), (Z.ltb_spec (code y) (code z)),
    (Z.ltb_spec (code z) (code x)), (Z.ltb_spec (code x) (code z));
    try easy; try lia.
  apply IH.
Qed.

Section SortedFacts.

Context {A : Type} (key : A -> str).

Lemma insert_sorted_perm (x : A) (l : list A) :
  Permutation (insert_sorted key x l) (x :: l).
Proof.
  induction l as [|y l IH]; simpl; [reflexivity|].
  destruct (str_ltb (key y) (key x)); [|reflexivity].
  rewrite IH. apply perm_swap.
Qed.

Lemma sorted_perm (l : list A) : Permutation (sorted key l) l.
Proof.
  induction l as [|x l IH]; simpl; [reflexivity|].
  rewrite insert_sorted_perm. now constructor.
Qed.

Lemma insert_sorted_sorted (x : A) (l : list A) :
  StronglySorted (name_le key) l ->
  StronglySorted (name_le key) (insert_sorted key x l).
Proof.
  induction 1 as [|y l Hs IH Hy]; simpl.
  - repeat constructor.
  - destruct (str_ltb (key y) (key x)) eqn:Hlt.
    + constructor; [exact IH|].
      eapply Permutation_Forall; [symmetry; apply insert_sorted_perm|].
      constructor; [|exact Hy].
      unfold name_le, str_le. now apply str_ltb_asym.
    + constructor; [now constructor|].
      constructor; [exact Hlt|].
      eapply Forall_impl; [|exact Hy].
      intros z Hz. unfold name_le in *.
      eapply str_le_trans; [exact Hlt | exact Hz].
Qed.

Lemma sorted_sorted (l : list A) : StronglySorted (name_le key) (sorted key l).
Proof.
  induction l as [|x l IH]; simpl; [constructor|].
  now apply insert_sorted_sorted.
Qed.

End SortedFacts.

(** Groups of rows listed by sorted name are sorted by name. *)
Lemma str_le_refl (a : str) : str_le a a.
Proof.
  unfold str_le. induction a as [|x a IH]; simpl; [reflexivity|].
  destruct (Z.ltb_spec (code x) (code x)); [lia | exact IH].
Qed.

Lemma groups_sorted {A : Type} (key : A -> str) (l : list A)
      (groups : list (list row)) :
  StronglySorted (name_le key) l ->
  Forall2 (fun a rs => Forall (fun r => filename r = key a) rs) l groups ->
  StronglySorted (name_le filename) (List.concat groups).
Proof.
  intros Hs. revert groups.
  induction Hs as [|a l Hs IH Ha]; intros groups HF; inversion HF; subst;
    simpl; [constructor|].
  match goal with
  | H1 : Forall _ ?rs, H2 : Forall2 _ l ?g |- _ =>
      rename rs into g0; rename g into gs; rename H1 into Hg; rename H2 into Hgs
  end.
  specialize (IH gs Hgs).
  assert (Hrest : Forall (fun r => str_le (key a) (filename r))
                         (List.concat gs)).
  { clear IH Hg HF. induction Hgs as [|b rs l' gs' Hb Hgs IHg]; simpl;
      [constructor|].
    inversion Ha; subst. inversion Hs; subst.
    apply Forall_app; split; [|now apply IHg].
    eapply Forall_impl; [|exact Hb].
    intros r Hr. simpl in Hr. rewrite Hr. assumption. }
  clear HF. induction Hg as [|r g0 Hr Hg IHg]; simpl; [exact IH|].
  constructor; [exact IHg|].
  apply Forall_app; split.
  - eapply Forall_impl; [|exact Hg].
    intros r' Hr'. unfold name_le. simpl in Hr'. rewrite Hr, Hr'.
    apply str_le_refl.
  - eapply Forall_impl; [|exact Hrest].
    intros r' Hr'. unfold name_le. rewrite Hr. exact Hr'.
Qed.

(** ** The sources *)

Section SourceFacts.

Variable hypot : float -> float -> float.
Variable E : env.
Variables (w h : Z) (f : float).

Lemma assemble_row_filename (fn : str) (det : detection) (r : row) :
  assemble_row hypot fn det w h f = Ok r -> filename r = fn.
Proof.
  unfold assemble_row.
  destruct (keypoints_px _ _ _) as [px|e]; simpl; [|discriminate].
  destruct (distances _ _ _ _ _) as [d|e]; simpl; [|discriminate].
  destruct (extract_frame_index fn) as [fr|e]; simpl; [|discriminate].
  destruct (time_of_frame fr f) as [t|e]; simpl; [|discriminate].
  intros K; inversion K; reflexivity.
Qed.

Lemma process_txt_handle_filename (fn : str) (fh : result str)
      (rows : list row) :
  process_txt_handle hypot fn fh w h f = Ok rows ->
  Forall (fun r => filename r = fn) rows.
Proof.
  intros Hp. destruct fh as [content|e]; [|discriminate].
  rewrite process_txt_handle_eq in Hp. unfold rows_by_line in Hp.
  destruct (mapM _ _) as [os|e] eqn:Hm; simpl in Hp; [|discriminate].
  inversion Hp; subst; clear Hp.
  apply mapM_Forall2 in Hm.
  induction Hm as [|line o text os Hl _ IH]; simpl; [constructor|].
  apply Forall_app; split; [|exact IH].
  destruct o as [r|]; simpl; constructor; [|constructor].
  unfold row_of_line in Hl. destruct (strip line); [discriminate|].
  destruct (parse_label_line line) as [[det|]|e]; simpl in Hl;
    try discriminate.
  destruct (assemble_row hypot fn det w h f) as [r'|e] eqn:Ha; simpl in Hl;
    [|discriminate].
  inversion Hl; subst. eapply assemble_row_filename; eauto.
Qed.

Lemma member_rows_filename (m : tar_member) (rs : list row) :
  member_rows hypot w h f m = Ok rs ->
  Forall (fun r => filename r = m_name m) rs.
Proof.
  unfold member_rows. destruct (m_extract m).
  - apply process_txt_handle_filename.
  - intros K; inversion K; constructor.
Qed.

Lemma file_rows_filename (d fn : str) :
  Forall (fun r => filename r = fn) (file_rows hypot E w h f d fn).
Proof.
  unfold file_rows.
  destruct (process_txt_handle _ _ _ _ _ _) as [rs|e] eqn:Hp; [|constructor].
  eapply process_txt_handle_filename; eauto.
Qed.

Lemma process_archive_in_member_order (p : str) (rows : list row) :
  process_archive hypot E p w h f = Ok rows ->
  archive_in_member_order hypot E w h f p rows.
Proof.
  unfold process_archive.
  destruct (tar_open E p) as [tar|e] eqn:Ht; simpl; [|discriminate].
  rewrite loop_members_eq.
  destruct (mapM _ _) as [rss|e] eqn:Hm; simpl; [|discriminate].
  intros K; inversion K; subst; clear K.
  apply mapM_Forall2 in Hm.
  exists tar, (sorted m_name (filter selected tar)), rss.
  repeat split; trivial.
  - apply sorted_sorted.
  - apply sorted_perm.
  - apply groups_sorted with (key := m_name)
                             (l := sorted m_name (filter selected tar)).
    + apply sorted_sorted.
    + eapply Forall2_impl; [|exact Hm].
      intros m rs. apply member_rows_filename.
Qed.

Lemma process_dir_in_name_order (d : str) (rows : list row) :
  process_dir hypot E d w h f = Ok rows ->
  dir_in_name_order hypot E w h f d rows.
Proof.
  unfold process_dir.
  destruct (listdir E d) as [names|e] eqn:Hn; simpl; [|discriminate].
  rewrite loop_files_eq. simpl app.
  intros K; inversion K; subst; clear K.
  exists names, (sorted (fun x => x) (filter is_txt names)).
  repeat split; trivial.
  - apply sorted_sorted.
  - apply sorted_perm.
  - rewrite flat_map_concat_map.
    apply groups_sorted with (key := fun x : str => x)
                             (l := sorted (fun x => x) (filter is_txt names)).
    + apply sorted_sorted.
    + induction (sorted (fun x => x) (filter is_txt names)) as [|fn l IH];
        simpl; constructor; [apply file_rows_filename | exact IH].
Qed.

Lemma process_txt_handle_in_line_order (fn content : str) (rows : list row) :
  process_txt_handle hypot fn (Ok content) w h f = Ok rows ->
  text_in_line_order hypot w h f fn content rows.
Proof.
  rewrite process_txt_handle_eq. unfold rows_by_line.
  destruct (mapM _ _) as [os|e] eqn:Hm; simpl; [|discriminate].
  intros K; inversion K; subst; clear K.
  exists os. split; [now apply mapM_Forall2 | reflexivity].
Qed.

(** An archive that cannot be opened, or one selected member that cannot be
    read, makes [process_archive] raise. *)
Lemma process_archive_raises_on_open (p : str) :
  raises (tar_open E p) -> raises (process_archive hypot E p w h f).
Proof.
  intros [e He]. unfold process_archive. rewrite He. simpl. red; eauto.
Qed.

Lemma process_archive_raises_on_member (p : str) (tar : list tar_member)
      (m : tar_member) (e : exn) :
  tar_open E p = Ok tar -> In m tar -> selected m = true ->
  m_extract m = Some (Raise e) ->
  raises (process_archive hypot E p w h f).
Proof.
  intros Ht Hin Hsel Hm. unfold process_archive. rewrite Ht. simpl.
  rewrite loop_members_eq.
  assert (Hr : raises (mapM (member_rows hypot w h f)
                            (sorted m_name (filter selected tar)))).
  { apply mapM_raises with (a := m).
    - eapply Permutation_in; [symmetry; apply sorted_perm|].
      apply filter_In; auto.
    - unfold member_rows. rewrite Hm. simpl. red; eauto. }
  unfold selected in Hr.
  destruct Hr as [e' ->]. simpl. red; eauto.
Qed.

End SourceFacts.

(** C4, the failing archive: its first member does not decode, its second
    holds one valid line.  [process_archive] has no handler around the
    member, so the error leaves it and the row of the second member is lost;
    the same two files in a directory give that row. *)
Theorem process_archive_aborts_on_unreadable_member :
  process_archive hypot_ref Demo.world (L "broken.tar.gz") 1080 1920 Demo.fps30
  = Raise UnicodeDecodeError
  /\ member_rows hypot_ref 1080 1920 Demo.fps30
       (mkMember (L "b_2.txt") true (Some (Ok Demo.line_kp)))
     = Ok [Demo.row_kp (L "b_2.txt") 2 Demo.t2]
  /\ loop_files hypot_ref
       (mkEnv (listdir Demo.world)
              (fun p => if str_eqb p (L "d/a_1.txt")
                        then Raise UnicodeDecodeError else Ok Demo.line_kp)
              (tar_open Demo.world) (open_write Demo.world)
              (encodable Demo.world))
       (L "d") 1080 1920 Demo.fps30 [] [L "a_1.txt"; L "b_2.txt"]
     = [Demo.row_kp (L "b_2.txt") 2 Demo.t2].
Proof.
  repeat split; vm_compute; reflexivity.
Qed.

(** C5: when one of the named archives cannot be opened, collecting the rows
    raises, so the run ends with that failure before [write_csv] is reached,
    and no CSV file is written. *)
Theorem no_csv_when_an_archive_cannot_be_opened :
  forall (hypot : float -> float -> float) (float_repr : float -> str)
         (E : env) (a : args) (l : list str) (p : str),
    archive a = Some l ->
    In p l ->
    raises (tar_open E p) ->
    raises (collect_rows hypot E a)
    /\ raises (status (main float_repr E hypot a))
    /\ written (main float_repr E hypot a) = [].
Proof.
  intros hypot float_repr E a l p Ha Hin Hopen.
  assert (Hc : raises (collect_rows hypot E a)).
  { unfold collect_rows.
    destruct (match labels_dir a with Some (c :: d) => _ | _ => _ end)
      as [rows0|e]; simpl; [|red; eauto].
    rewrite Ha. destruct l as [|x l']; [destruct Hin|].
    change (raises (loop_archives hypot E (width a) (height a) (fps a)
                                  rows0 (x :: l'))).
    rewrite loop_archives_eq.
    assert (Hr : raises (mapM (fun a0 => process_archive hypot E a0 (width a)
                                           (height a) (fps a)) (x :: l'))).
    { apply mapM_raises with (a := p); [exact Hin|].
      now apply process_archive_raises_on_open. }
    destruct Hr as [e ->]. simpl. red; eauto. }
  split; [exact Hc|].
  destruct Hc as [e He]. unfold main. rewrite He. simpl.
  split; [red; eauto | reflexivity].
Qed.

(** A run the theorem applies to: the second archive does not exist. *)
Lemma no_csv_when_an_archive_cannot_be_opened_witness :
  raises (collect_rows hypot_ref Demo.world
            (Demo.run_args (Some (L "labels"))
                           (Some [L "chunk.tar.gz"; L "missing.tar.gz"])))
  /\ raises (status (main float_repr_ref Demo.world hypot_ref
               (Demo.run_args (Some (L "labels"))
                              (Some [L "chunk.tar.gz"; L "missing.tar.gz"]))))
  /\ written (main float_repr_ref Demo.world hypot_ref
               (Demo.run_args (Some (L "labels"))
                              (Some [L "chunk.tar.gz"; L "missing.tar.gz"])))
     = [].
Proof.
  apply (no_csv_when_an_archive_cannot_be_opened hypot_ref float_repr_ref
           Demo.world
           (Demo.run_args (Some (L "labels"))
                          (Some [L "chunk.tar.gz"; L "missing.tar.gz"]))
           [L "chunk.tar.gz"; L "missing.tar.gz"] (L "missing.tar.gz")).
  - reflexivity.
  - simpl; auto.
  - exists OSError. vm_compute. reflexivity.
Defined.

(** C7: with a label directory and archives, the rows are those of the
    directory followed by those of the archives in the order of the
    arguments; the directory contributes its label files by name, each
    archive its selected members by name, and each text its lines in
    order. *)
Theorem rows_follow_source_order :
  forall (hypot : float -> float -> float) (E : env) (a : args)
         (d : str) (l : list str) (rows : list row),
    labels_dir a = Some d ->
    d <> [] ->
    archive a = Some l ->
    collect_rows hypot E a = Ok rows ->
    exists dir_rows arch_rows,
      rows = dir_rows ++ List.concat arch_rows
      /\ dir_in_name_order hypot E (width a) (height a) (fps a) d dir_rows
      /\ Forall2 (archive_in_member_order hypot E (width a) (height a) (fps a))
                 l arch_rows
      /\ (forall fn content rs,
             process_txt_handle hypot fn (Ok content)
                                (width a) (height a) (fps a) = Ok rs ->
             text_in_line_order hypot (width a) (height a) (fps a)
                                fn content rs).
Proof.
  intros hypot E a d l rows Hd Hne Ha Hc.
  unfold collect_rows in Hc. rewrite Hd, Ha in Hc.
  destruct d as [|c d]; [contradiction|].
  destruct (process_dir hypot E (c :: d) (width a) (height a) (fps a))
    as [rows0|e] eqn:Hp; simpl in Hc; [|discriminate].
  assert (Hl : loop_archives hypot E (width a) (height a) (fps a) rows0 l
               = Ok rows).
  { destruct l; [simpl; exact Hc | exact Hc]. }
  clear Hc. rewrite loop_archives_eq in Hl.
  destruct (mapM _ l) as [rss|e] eqn:Hm; simpl in Hl; [|discriminate].
  inversion Hl; subst rows; clear Hl.
  exists rows0, rss. repeat split.
  - now apply process_dir_in_name_order.
  - apply mapM_Forall2 in Hm.
    eapply Forall2_impl; [|exact Hm].
    intros p rs. apply process_archive_in_member_order.
  - intros fn content rs. apply process_txt_handle_in_line_order.
Qed.

(** The example run, with both kinds of sources. *)
Lemma rows_follow_source_order_witness :
  exists dir_rows arch_rows,
    Demo.dir_rows ++ Demo.chunk_rows = dir_rows ++ List.concat arch_rows
    /\ dir_in_name_order hypot_ref Demo.world 1080 1920 Demo.fps30
                         (L "labels") dir_rows
    /\ Forall2 (archive_in_member_order hypot_ref Demo.world 1080 1920
                                        Demo.fps30)
               [L "chunk.tar.gz"] arch_rows
    /\ (forall fn content rs,
           process_txt_handle hypot_ref fn (Ok content) 1080 1920 Demo.fps30
           = Ok rs ->
           text_in_line_order hypot_ref 1080 1920 Demo.fps30 fn content rs).
Proof.
  apply (rows_follow_source_order hypot_ref Demo.world
           (Demo.run_args (Some (L "labels")) (Some [L "chunk.tar.gz"]))
           (L "labels") [L "chunk.tar.gz"]
           (Demo.dir_rows ++ Demo.chunk_rows)).
  - reflexivity.
  - discriminate.
  - reflexivity.
  - vm_compute; reflexivity.
Defined.

(** ** The metric *)

Lemma half_read : py_float (L "0.5") = Ok half.
Proof. vm_compute; reflexivity. Qed.

Lemma six_tenths_read : py_float (L "0.6") = Ok six_tenths.
Proof. vm_compute; reflexivity. Qed.

Lemma hypot_ref_zero_left : hypot_zero_left hypot_ref.
Proof. intros [s|s| |s m e]; reflexivity. Qed.

Lemma norm_to_px_scales (x y : float) (w h : Z) (fw fh : float) :
  float_of_int w = Ok fw -> float_of_int h = Ok fh ->
  norm_to_px x y w h = Ok (fmul x fw, fmul y fh).
Proof. intros Hw Hh. unfold norm_to_px. now rewrite Hw, Hh. Qed.

Lemma out_of_range_read :
  py_float (L "1.5") = Ok one_and_half
  /\ py_float (L "-0.25") = Ok minus_quarter.
Proof. split; vm_compute; reflexivity. Qed.

(** C9: with nose (0.5, 0.5), mouth (0.5, 0.6) and a frame of 1080 by 1920,
    the pixel coordinates are (540, 960) and (540, 1152), the distance is 192
    and the normalized distance is 192 divided by [hypot(1080, 1920)]; the
    row carries these values.  Whatever the coordinates, the width and the
    height, [norm_to_px] gives the float product of the first coordinate by
    the width and of the second by the height, each dimension converted to a
    float, and nothing else is done to the products: (1.5, -0.25) on 1080 by
    1920 gives (1620, -480), out of the frame. *)
Theorem metric_of_the_worked_example :
  forall (hypot : float -> float -> float) (det : detection)
         (c1 c2 : option float) (rest : list keypoint)
         (fn : str) (f : float) (fr : option Z) (t : option float),
    hypot_zero_left hypot ->
    is_zero (hypot f1080 f1920) = false ->
    kps det = (half, half, c1) :: (half, six_tenths, c2) :: rest ->
    extract_frame_index fn = Ok fr ->
    time_of_frame fr f = Ok t ->
    keypoints_px (kps det) 1080 1920
    = Ok ((Some Demo.f540, Some Demo.f960), (Some Demo.f540, Some Demo.f1152))
    /\ distances hypot (Some Demo.f540, Some Demo.f960)
                 (Some Demo.f540, Some Demo.f1152) 1080 1920
       = Ok (Some Demo.f192, Some (fdiv Demo.f192 (hypot f1080 f1920)))
    /\ assemble_row hypot fn det 1080 1920 f
       = Ok (mkRow fn fr t (Some Demo.f540) (Some Demo.f960)
                   (Some Demo.f540) (Some Demo.f1152) (Some Demo.f192)
                   (Some (fdiv Demo.f192 (hypot f1080 f1920))))
    /\ (forall (x y : float) (w h : Z) (fw fh : float),
           float_of_int w = Ok fw -> float_of_int h = Ok fh ->
           norm_to_px x y w h = Ok (fmul x fw, fmul y fh))
    /\ norm_to_px one_and_half minus_quarter 1080 1920
       = Ok (round_of_Z 1620, round_of_Z (-480)).
Proof.
  intros hypot det c1 c2 rest fn f fr t H0 Hdiag Hk Hfr Ht.
  assert (Hpx : keypoints_px (kps det) 1080 1920
                = Ok ((Some Demo.f540, Some Demo.f960),
                      (Some Demo.f540, Some Demo.f1152))).
  { rewrite Hk. unfold keypoints_px.
    change (List.length _ <? 2)%nat with false. cbv iota.
    vm_compute. reflexivity. }
  assert (Hsub : fsub Demo.f540 Demo.f540 = S754_zero false)
    by (vm_compute; reflexivity).
  assert (Hdy : fabs (fsub Demo.f960 Demo.f1152) = Demo.f192)
    by (vm_compute; reflexivity).
  assert (Hd : distances hypot (Some Demo.f540, Some Demo.f960)
                         (Some Demo.f540, Some Demo.f1152) 1080 1920
               = Ok (Some Demo.f192,
                     Some (fdiv Demo.f192 (hypot f1080 f1920)))).
  { unfold distances. simpl fst. simpl snd. cbv iota.
    rewrite Hsub, H0, Hdy.
    change (float_of_int 1080) with (Ok f1080).
    change (float_of_int 1920) with (Ok f1920).
    simpl. unfold truediv. rewrite Hdiag. reflexivity. }
  split; [exact Hpx|]. split; [exact Hd|]. split.
  - unfold assemble_row.
    rewrite Hpx. simpl. rewrite Hd. simpl. rewrite Hfr. simpl. rewrite Ht.
    reflexivity.
  - split; [exact norm_to_px_scales | vm_compute; reflexivity].
Qed.

(** The example on the reference [hypot], with the record of the line
    [0 0.5 0.5 0.1 0.1 0.5 0.5 0.9 0.5 0.6 0.8] in file [video_00042.txt]. *)
Lemma metric_of_the_worked_example_witness :
  keypoints_px (kps Demo.det_kp) 1080 1920
  = Ok ((Some Demo.f540, Some Demo.f960), (Some Demo.f540, Some Demo.f1152))
  /\ distances hypot_ref (Some Demo.f540, Some Demo.f960)
               (Some Demo.f540, Some Demo.f1152) 1080 1920
     = Ok (Some Demo.f192, Some (fdiv Demo.f192 (hypot_ref f1080 f1920)))
  /\ assemble_row hypot_ref (L "video_00042.txt") Demo.det_kp 1080 1920
                  Demo.fps30
     = Ok (mkRow (L "video_00042.txt") (Some 42) (Some Demo.t42)
                 (Some Demo.f540) (Some Demo.f960)
                 (Some Demo.f540) (Some Demo.f1152) (Some Demo.f192)
                 (Some (fdiv Demo.f192 (hypot_ref f1080 f1920))))
  /\ (forall (x y : float) (w h : Z) (fw fh : float),
         float_of_int w = Ok fw -> float_of_int h = Ok fh ->
         norm_to_px x y w h = Ok (fmul x fw, fmul y fh))
  /\ norm_to_px one_and_half minus_quarter 1080 1920
     = Ok (round_of_Z 1620, round_of_Z (-480)).
Proof.
  apply (metric_of_the_worked_example hypot_ref Demo.det_kp
           (Some Demo.conf9) (Some Demo.conf8) []
           (L "video_00042.txt") Demo.fps30 (Some 42) (Some Demo.t42)).
  - exact hypot_ref_zero_left.
  - vm_compute; reflexivity.
  - reflexivity.
  - vm_compute; reflexivity.
  - vm_compute; reflexivity.
Defined.

Example det_kp_parsed : parse_label_line Demo.line_kp = Ok (Some Demo.det_kp).
Proof. vm_compute; reflexivity. Qed.

(** ** Confidence *)

Lemma parse_label_line_values (line : str) (v0 v1 v2 v3 v4 : float)
      (rem : list float) :
  line_values line = Ok (v0 :: v1 :: v2 :: v3 :: v4 :: rem) ->
  parse_label_line line
  = (c <- int_of_float v0 ;;
     Ok (Some (mkDetection c v1 v2 v3 v4 (group_keypoints rem)))).
Proof.
  intros Hv. unfold line_values in Hv. unfold parse_label_line.
  pose proof (mapM_length _ _ _ Hv) as Hl. simpl in Hl.
  destruct (Nat.ltb_spec (List.length (split_ws (strip line))) 5) as [Hlt|_];
    [lia|].
  rewrite Hv. reflexivity.
Qed.

Lemma line_values_strip (line : str) (v : float) (vals : list float) :
  line_values line = Ok (v :: vals) -> strip line <> [].
Proof.
  unfold line_values. intros Hv He. rewrite He in Hv. discriminate.
Qed.

Lemma group_keypoints_triplets (rem : list float) :
  (List.length rem mod 3 = 0)%nat -> group_keypoints rem = read_triplets rem.
Proof.
  intros H. unfold group_keypoints. destruct rem as [|v rem']; [reflexivity|].
  rewrite <- Nat2Z.inj_mod with (m := 3%nat), H. reflexivity.
Qed.

Lemma read_triplets_same_xy (k : nat) : forall r1 r2,
  List.length r1 = (3 * k)%nat ->
  List.length r2 = (3 * k)%nat ->
  (forall j, (j mod 3 <> 2)%nat -> nth_error r1 j = nth_error r2 j) ->
  same_xy (read_triplets r1) (read_triplets r2).
Proof.
  induction k as [|k IH]; intros r1 r2 H1 H2 Hj.
  - destruct r1, r2; simpl in *; try lia. constructor.
  - destruct r1 as [|x1 [|y1 [|c1 r1]]]; simpl in H1; try lia.
    destruct r2 as [|x2 [|y2 [|c2 r2]]]; simpl in H2; try lia.
    change (read_triplets (x1 :: y1 :: c1 :: r1))
      with ((x1, y1, Some c1) :: read_triplets r1).
    change (read_triplets (x2 :: y2 :: c2 :: r2))
      with ((x2, y2, Some c2) :: read_triplets r2).
    constructor.
    + pose proof (Hj 0%nat ltac:(simpl; lia)) as Hx.
      pose proof (Hj 1%nat ltac:(simpl; lia)) as Hy.
      simpl in Hx, Hy. inversion Hx; inversion Hy; reflexivity.
    + apply IH; try lia.
      intros j Hm. apply (Hj (S (S (S j)))).
      replace (S (S (S j))) with (j + 1 * 3)%nat by lia.
      now rewrite Nat.Div0.mod_add.
Qed.

Section ConfidenceFacts.

Variable hypot : float -> float -> float.
Variables (w h : Z) (f : float).

Lemma keypoints_px_same_xy (k1 k2 : list keypoint) :
  same_xy k1 k2 -> keypoints_px k1 w h = keypoints_px k2 w h.
Proof.
  intros H. unfold keypoints_px.
  destruct H as [|[[x1 y1] c1] [[x2 y2] c2] k1 k2 Ha H]; [reflexivity|].
  simpl in Ha. inversion Ha; subst.
  destruct H as [|[[x1 y1] d1] [[x3 y3] d2] k1 k2 Hb H]; [reflexivity|].
  simpl in Hb. inversion Hb; subst. reflexivity.
Qed.

Lemma assemble_row_same_xy (fn : str) (d1 d2 : detection) :
  same_xy (kps d1) (kps d2) ->
  assemble_row hypot fn d1 w h f = assemble_row hypot fn d2 w h f.
Proof.
  intros H. unfold assemble_row. now rewrite (keypoints_px_same_xy _ _ H).
Qed.

End ConfidenceFacts.

(** C10: two lines of triplets whose tokens all convert and differ at
    confidence positions only give the same outcome of the loop body, row for
    row; and the assembler gives the same row for two records whose
    keypoints have the same coordinates. *)
Theorem confidence_never_reaches_a_row :
  forall (hypot : float -> float -> float) (fn : str) (w h : Z) (f : float)
         (l1 l2 : str) (v1 v2 : list float),
    line_values l1 = Ok v1 ->
    line_values l2 = Ok v2 ->
    (5 <= List.length v1)%nat ->
    ((List.length v1 - 5) mod 3 = 0)%nat ->
    same_but_confidence (split_ws (strip l1)) (split_ws (strip l2)) ->
    row_of_line hypot fn w h f l1 = row_of_line hypot fn w h f l2
    /\ (forall d1 d2, same_xy (kps d1) (kps d2) ->
                      assemble_row hypot fn d1 w h f
                      = assemble_row hypot fn d2 w h f).
Proof.
  intros hypot fn w h f l1 l2 v1 v2 Hv1 Hv2 Hlen Hmod [Hsame Hpos].
  split; [|intros d1 d2; apply assemble_row_same_xy].
  pose proof (mapM_length _ _ _ Hv1) as Hl1.
  pose proof (mapM_length _ _ _ Hv2) as Hl2.
  assert (Hval : forall i, conf_position i = false ->
                           nth_error v1 i = nth_error v2 i).
  { intros i Hi. specialize (Hpos i Hi).
    destruct (nth_error (split_ws (strip l1)) i) as [t|] eqn:Ht.
    - destruct (mapM_nth_error _ _ _ _ _ Hv1 Ht) as [b1 [Hb1 Hn1]].
      symmetry in Hpos.
      destruct (mapM_nth_error _ _ _ _ _ Hv2 Hpos) as [b2 [Hb2 Hn2]].
      congruence.
    - apply nth_error_None in Ht.
      assert (Hn1 : nth_error v1 i = None) by (apply nth_error_None; lia).
      assert (Hn2 : nth_error v2 i = None) by (apply nth_error_None; lia).
      congruence. }
  destruct v1 as [|a0 [|a1 [|a2 [|a3 [|a4 r1]]]]]; simpl in Hlen; try lia.
  destruct v2 as [|b0 [|b1 [|b2 [|b3 [|b4 r2]]]]]; simpl in Hl1, Hl2; try lia.
  pose proof (Hval 0%nat eq_refl) as E0. pose proof (Hval 1%nat eq_refl) as E1.
  pose proof (Hval 2%nat eq_refl) as E2. pose proof (Hval 3%nat eq_refl) as E3.
  pose proof (Hval 4%nat eq_refl) as E4. simpl in E0, E1, E2, E3, E4.
  inversion E0; inversion E1; inversion E2; inversion E3; inversion E4; subst.
  assert (Hm : (List.length r1 mod 3 = 0)%nat).
  { replace (List.length r1)
      with (List.length (b0 :: b1 :: b2 :: b3 :: b4 :: r1) - 5)%nat
      by (simpl; lia).
    exact Hmod. }
  clear Hmod. rename Hm into Hmod.
  assert (Hr : same_xy (group_keypoints r1) (group_keypoints r2)).
  { assert (Hk : List.length r1 = (3 * (List.length r1 / 3))%nat).
    { pose proof (Nat.div_mod_eq (List.length r1) 3). lia. }
    assert (Hlr : List.length r2 = List.length r1) by lia.
    rewrite !group_keypoints_triplets by (rewrite ?Hlr; exact Hmod).
    apply read_triplets_same_xy with (k := (List.length r1 / 3)%nat);
      [exact Hk | lia |].
    intros j Hj. apply (Hval (5 + j)%nat).
    unfold conf_position. replace (5 + j - 5)%nat with j by lia.
    destruct (Nat.eqb_spec (j mod 3) 2); [contradiction|].
    apply andb_false_r. }
  unfold row_of_line.
  pose proof (line_values_strip _ _ _ Hv1) as Hs1.
  pose proof (line_values_strip _ _ _ Hv2) as Hs2.
  rewrite (parse_label_line_values _ _ _ _ _ _ _ Hv1).
  rewrite (parse_label_line_values _ _ _ _ _ _ _ Hv2).
  destruct (strip l1); [contradiction|]. destruct (strip l2); [contradiction|].
  destruct (int_of_float b0) as [c|e]; simpl; [|reflexivity].
  now rewrite (assemble_row_same_xy hypot w h f fn
                 (mkDetection c b1 b2 b3 b4 (group_keypoints r1))
                 (mkDetection c b1 b2 b3 b4 (group_keypoints r2)) Hr).
Qed.

(** Two lines the theorem applies to: confidences 0.9 and 0.8 in one, 0.25
    and a NaN in the other. *)
Lemma confidence_never_reaches_a_row_witness :
  row_of_line hypot_ref (L "video_00042.txt") 1080 1920 Demo.fps30 Demo.line_kp
  = row_of_line hypot_ref (L "video_00042.txt") 1080 1920 Demo.fps30
                line_kp_other_conf
  /\ (forall d1 d2, same_xy (kps d1) (kps d2) ->
                    assemble_row hypot_ref (L "video_00042.txt") d1
                                 1080 1920 Demo.fps30
                    = assemble_row hypot_ref (L "video_00042.txt") d2
                                   1080 1920 Demo.fps30).
Proof.
  apply (confidence_never_reaches_a_row hypot_ref (L "video_00042.txt")
           1080 1920 Demo.fps30 Demo.line_kp line_kp_other_conf
           (S754_zero false :: half :: half :: Demo.tenth :: Demo.tenth
              :: [half; half; Demo.conf9; half; six_tenths; Demo.conf8])
           (S754_zero false :: half :: half :: Demo.tenth :: Demo.tenth
              :: [half; half; S754_finite false 4503599627370496 (-54);
                  half; six_tenths; S754_nan])).
  - vm_compute; reflexivity.
  - vm_compute; reflexivity.
  - simpl; lia.
  - reflexivity.
  - split; [vm_compute; reflexivity|].
    intros i Hi.
    do 11 (destruct i as [|i];
           [first [vm_compute; reflexivity | vm_compute in Hi; discriminate Hi]|]).
    vm_compute; reflexivity.
Defined.

(** ** The frame indexer *)

Example frame_of_video_00042 :
  extract_frame_index (L "video_00042.txt") = Ok (Some 42).
Proof. vm_compute; reflexivity. Qed.

Example frame_of_clip_7 : extract_frame_index (L "clip_7.txt") = Ok (Some 7).
Proof. vm_compute; reflexivity. Qed.

Example frame_of_nope : extract_frame_index (L "nope.txt") = Ok None.
Proof. vm_compute; reflexivity. Qed.

(** C6, the failing name: [clip_], the superscript two (code point 178) and
    [.txt].  The pattern does not match, the last segment passes [isdigit],
    and [int] raises [ValueError] on it. *)
Theorem extract_frame_index_raises_on_superscript_digit :
  is_txt (L "clip_" ++ [chr 178] ++ L ".txt") = true
  /\ frame_re_search (basename (L "clip_" ++ [chr 178] ++ L ".txt")) = None
  /\ isdigit [chr 178] = true
  /\ py_int [chr 178] = Raise ValueError
  /\ extract_frame_index (L "clip_" ++ [chr 178] ++ L ".txt")
     = Raise ValueError.
Proof.
  repeat split; vm_compute; reflexivity.
Qed.

(** ** The CSV reader, in one pass *)




Lemma read_records_nil (r : reader) (recs : list (list str)) :
  read_records r recs [] = end_input r recs.
Proof. reflexivity. Qed.

Lemma scan_start_mid (r : reader) (recs : list (list str)) (c : ascii)
      (s : str) :
  scan LineMid r recs (c :: s) = scan LineStart r recs (c :: s).
Proof. reflexivity. Qed.


Lemma bind_ok {A B : Type} (a : A) (k : A -> result B) :
  bind (Ok a) k = k a.
Proof. reflexivity. Qed.

Lemma bind_raise {A B : Type} (e : exn) (k : A -> result B) :
  bind (Raise e) k = Raise e.
Proof. reflexivity. Qed.







(** ** Writing, then reading back *)



Lemma add_char_at_limit (r : reader) (c : ascii) (s : rstate) :
  field_limit <= Z.of_nat (List.length (field r)) ->
  add_char r c s = Raise CsvError.
Proof.
  intros H. unfold add_char. apply Z.leb_le in H. now rewrite H.
Qed.






















Lemma keys_spelled_out : keys = header.
Proof. reflexivity. Qed.








Example csv_of_the_example_run :
  written (main float_repr_ref Demo.world hypot_ref
                (Demo.run_args None (Some [L "chunk.tar.gz"])))
  = [ (L "dists.csv",
       L "filename,frame,time_s,nose_x,nose_y,mouth_x,mouth_y,d_px,d_norm"
         ++ [CR; LF]
         ++ L "a_2.txt,2,0.06666666666666667,540.0,960.0,540.0,1152.0,192.0,0.08715755371245493"
         ++ [CR; LF]
         ++ L "z_1.txt,1,0.03333333333333333,,,,,," ++ [CR; LF]) ].
Proof. vm_compute. reflexivity. Qed.

(** * Further properties *)

(** ** Lines that give no row, lines that give an empty row *)

Lemma row_of_line_blank (hypot : float -> float -> float) (fn : str)
      (w h : Z) (f : float) (line : str) :
  blank line = true -> row_of_line hypot fn w h f line = Ok None.
Proof.
  unfold blank, row_of_line. destruct (strip line); [reflexivity|discriminate].
Qed.

(** A line gives no row, and no error, when it is blank, has fewer than five
    tokens, or has a token that [float] rejects. *)
Theorem line_without_record_gives_no_row :
  forall (hypot : float -> float -> float) (fn : str) (w h : Z) (f : float)
         (line : str),
    blank line = true
    \/ (List.length (split_ws (strip line)) < 5)%nat
    \/ raises (line_values line) ->
    row_of_line hypot fn w h f line = Ok None.
Proof.
  intros hypot fn w h f line [Hb | [Hlen | [e He]]].
  - now apply row_of_line_blank.
  - unfold row_of_line. rewrite (parse_label_line_few_tokens _ Hlen).
    now destruct (strip line).
  - unfold row_of_line. rewrite (parse_label_line_bad_token _ _ He).
    now destruct (strip line).
Qed.

Lemma line_without_record_gives_no_row_witness :
  row_of_line hypot_ref (L "clip_7.txt") 1080 1920 Demo.fps30
              (L "0 0.5 0.5 0.1 x")
  = Ok None.
Proof.
  apply (line_without_record_gives_no_row hypot_ref (L "clip_7.txt")
           1080 1920 Demo.fps30 (L "0 0.5 0.5 0.1 x")).
  right. right. exists ValueError. vm_compute. reflexivity.
Defined.

Lemma group_keypoints_short (rem : list float) :
  (List.length rem <= 3)%nat -> (List.length (group_keypoints rem) < 2)%nat.
Proof.
  destruct rem as [|a [|b [|c [|d rem]]]]; simpl; intros H; try lia.
Qed.

Lemma row_of_line_record (hypot : float -> float -> float) (fn : str)
      (w h : Z) (f : float) (line : str) (det : detection) :
  strip line <> [] ->
  parse_label_line line = Ok (Some det) ->
  row_of_line hypot fn w h f line
  = (r <- assemble_row hypot fn det w h f ;; Ok (Some r)).
Proof.
  intros Hs Hp. unfold row_of_line. rewrite Hp.
  destruct (strip line); [contradiction|reflexivity].
Qed.

Lemma assemble_row_short (hypot : float -> float -> float) (fn : str)
      (w h : Z) (f : float) (det : detection) :
  (List.length (kps det) < 2)%nat ->
  assemble_row hypot fn det w h f
  = (fr <- extract_frame_index fn ;;
     t <- time_of_frame fr f ;;
     Ok (mkRow fn fr t None None None None None None)).
Proof.
  intros Hk. unfold assemble_row, keypoints_px.
  destruct (Nat.ltb_spec (List.length (kps det)) 2) as [_|Hge]; [|lia].
  reflexivity.
Qed.

(** A line of five to eight numeric tokens whose first value is finite has
    no keypoints to measure: what it gives is decided by the frame lookup on
    the file name and by the time computation alone.  If one of them raises,
    so does the line; otherwise the line gives exactly one row, with that
    frame and that time, whose four coordinates and two distances are all
    missing. *)
Theorem short_line_gives_row_without_metric :
  forall (hypot : float -> float -> float) (fn : str) (w h : Z) (f : float)
         (line : str) (vals : list float),
    line_values line = Ok vals ->
    (5 <= List.length vals <= 8)%nat ->
    is_finite (nth 0 vals S754_nan) = true ->
    row_of_line hypot fn w h f line
    = (fr <- extract_frame_index fn ;;
       t <- time_of_frame fr f ;;
       Ok (Some (mkRow fn fr t None None None None None None))).
Proof.
  intros hypot fn w h f line vals Hv Hlen Hfin.
  destruct vals as [|v0 [|v1 [|v2 [|v3 [|v4 rem]]]]]; simpl in Hlen; try lia.
  pose proof (line_values_strip _ _ _ Hv) as Hs.
  pose proof (parse_label_line_values _ _ _ _ _ _ _ Hv) as Hp.
  simpl in Hfin.
  assert (Hc : exists c, int_of_float v0 = Ok c)
    by (destruct v0; try discriminate; simpl; eauto).
  destruct Hc as [c Hc]. rewrite Hc, bind_ok in Hp.
  rewrite (row_of_line_record _ _ _ _ _ _ _ Hs Hp).
  rewrite assemble_row_short
    by (cbn [kps]; apply group_keypoints_short; lia).
  destruct (extract_frame_index fn) as [fr|e]; [|reflexivity].
  rewrite !bind_ok.
  destruct (time_of_frame fr f) as [t|e]; reflexivity.
Qed.

(** The box line in [clip_7.txt] gives a row; in a file named with a
    superscript two, where the frame lookup raises, it raises. *)
Lemma short_line_gives_row_without_metric_witness :
  row_of_line hypot_ref (L "clip_7.txt") 1080 1920 Demo.fps30 Demo.line_box
  = Ok (Some (mkRow (L "clip_7.txt") (Some 7) (Some Demo.t7)
                    None None None None None None))
  /\ row_of_line hypot_ref (L "clip_" ++ [chr 178] ++ L ".txt") 1080 1920
                 Demo.fps30 Demo.line_box
     = Raise ValueError.
Proof.
  split.
  - rewrite (short_line_gives_row_without_metric hypot_ref (L "clip_7.txt")
               1080 1920 Demo.fps30 Demo.line_box
               [round_of_Z 1; S754_finite false 7205759403792794 (-54);
                S754_finite false 7205759403792794 (-54);
                S754_finite false 7205759403792794 (-55);
                S754_finite false 7205759403792794 (-55)]).
    + vm_compute; reflexivity.
    + vm_compute; reflexivity.
    + simpl; lia.
    + reflexivity.
  - rewrite (short_line_gives_row_without_metric hypot_ref
               (L "clip_" ++ [chr 178] ++ L ".txt")
               1080 1920 Demo.fps30 Demo.line_box
               [round_of_Z 1; S754_finite false 7205759403792794 (-54);
                S754_finite false 7205759403792794 (-54);
                S754_finite false 7205759403792794 (-55);
                S754_finite false 7205759403792794 (-55)]).
    + vm_compute; reflexivity.
    + vm_compute; reflexivity.
    + simpl; lia.
    + reflexivity.
Defined.

(** ** The number of rows of a text *)

Lemma split_ws_nil : split_ws [] = [].
Proof. reflexivity. Qed.

Lemma row_of_line_some_iff (hypot : float -> float -> float) (fn : str)
      (w h : Z) (f : float) (line : str) (o : option row) :
  row_of_line hypot fn w h f line = Ok o ->
  match o with Some _ => true | None => false end = accepted line.
Proof.
  unfold row_of_line, accepted, line_values.
  destruct (strip line) as [|c s] eqn:Hs.
  - intros K; inversion K. reflexivity.
  - rewrite <- Hs. unfold parse_label_line.
    destruct (Nat.ltb_spec (List.length (split_ws (strip line))) 5)
      as [Hlt|Hge]; cbn [negb andb].
    + rewrite bind_ok. intros K; inversion K; reflexivity.
    + destruct (mapM py_float (split_ws (strip line))) as [vals|e] eqn:Hv;
        cbn [is_ok].
      * pose proof (mapM_length _ _ _ Hv) as Hl.
        destruct vals as [|v0 [|v1 [|v2 [|v3 [|v4 rem]]]]]; simpl in Hl;
          try lia.
        destruct (int_of_float v0) as [cl|e]; [|discriminate].
        rewrite !bind_ok.
        destruct (assemble_row _ _ _ _ _ _) as [r|e]; [|discriminate].
        rewrite bind_ok. intros K; inversion K; reflexivity.
      * rewrite bind_ok. intros K; inversion K; reflexivity.
Qed.

(** When a text is processed without an exception, it gives exactly one row
    per line that has at least five tokens, all numeric. *)
Theorem rows_count_accepted_lines :
  forall (hypot : float -> float -> float) (fn content : str) (w h : Z)
         (f : float) (rows : list row),
    process_txt_handle hypot fn (Ok content) w h f = Ok rows ->
    List.length rows
    = List.length (filter accepted (splitlines (strip content))).
Proof.
  intros hypot fn content w h f rows Hp.
  rewrite process_txt_handle_eq in Hp. unfold rows_by_line in Hp.
  destruct (mapM _ _) as [os|e] eqn:Hm; [|discriminate].
  rewrite bind_ok in Hp. inversion Hp; subst; clear Hp.
  apply mapM_Forall2 in Hm.
  induction Hm as [|line o text os Hl _ IH]; [reflexivity|].
  cbn [flat_map filter]. rewrite length_app, IH.
  rewrite <- (row_of_line_some_iff _ _ _ _ _ _ _ Hl).
  destruct o; reflexivity.
Qed.

Lemma rows_count_accepted_lines_witness :
  List.length [Demo.row_kp (L "video_00042.txt") 42 Demo.t42;
               Demo.row_box (L "video_00042.txt") 42 Demo.t42]
  = List.length
      (filter accepted
         (splitlines
            (strip (Demo.line_kp ++ [LF] ++ L "oops" ++ [LF]
                      ++ Demo.line_box ++ [LF])))).
Proof.
  apply (rows_count_accepted_lines hypot_ref (L "video_00042.txt")
           (Demo.line_kp ++ [LF] ++ L "oops" ++ [LF] ++ Demo.line_box ++ [LF])
           1080 1920 Demo.fps30).
  vm_compute; reflexivity.
Defined.

(** ** Frame and time of a row *)

Lemma assemble_row_frame_time (hypot : float -> float -> float) (fn : str)
      (det : detection) (w h : Z) (f : float) (r : row) :
  assemble_row hypot fn det w h f = Ok r ->
  filename r = fn
  /\ extract_frame_index (filename r) = Ok (frame r)
  /\ time_of_frame (frame r) f = Ok (time_s r).
Proof.
  unfold assemble_row.
  destruct (keypoints_px _ _ _) as [px|e]; [|discriminate].
  rewrite bind_ok.
  destruct (distances _ _ _ _ _) as [d|e]; [|discriminate].
  rewrite bind_ok.
  destruct (extract_frame_index fn) as [fr|e] eqn:Hfr; [|discriminate].
  rewrite bind_ok.
  destruct (time_of_frame fr f) as [t|e] eqn:Ht; [|discriminate].
  rewrite bind_ok. intros K; inversion K; subst; clear K.
  cbn [filename frame time_s]. auto.
Qed.

Lemma time_of_frame_value (fr : option Z) (f : float) (t : option float) :
  time_of_frame fr f = Ok t ->
  (present t <-> present fr /\ float_truth f = true)
  /\ (forall n x, fr = Some n -> t = Some x ->
                  exists y, float_of_int n = Ok y /\ x = fdiv y f).
Proof.
  unfold time_of_frame, present.
  destruct fr as [n|].
  - destruct (float_truth f) eqn:Hf.
    + destruct (float_of_int n) as [y|e] eqn:Hy; [|discriminate].
      rewrite bind_ok. unfold truediv.
      pose proof Hf as Hz.
      unfold float_truth in Hz. apply negb_true_iff in Hz. rewrite Hz.
      rewrite bind_ok. intros K; inversion K; subst; clear K.
      split.
      * split; [intros _; split; eauto | intros _; eauto].
      * intros n' x Hn Hx. inversion Hn; inversion Hx; subst. eauto.
    + intros K; inversion K; subst; clear K. split.
      * split; [intros [x Hx]; discriminate | intros [_ Hd]; discriminate].
      * intros n' x _ Hx. discriminate.
  - intros K; inversion K; subst; clear K. split.
    + split; [intros [x Hx]; discriminate | intros [[x Hx] _]; discriminate].
    + intros n x Hn. discriminate.
Qed.

(** The frame of a row is read off its file name alone: two rows of a run
    with the same file name have the same frame and the same time. *)
Theorem frame_is_a_function_of_the_file_name :
  forall (hypot : float -> float -> float) (E : env) (a : args)
         (rows : list row) (r1 r2 : row),
    collect_rows hypot E a = Ok rows ->
    In r1 rows -> In r2 rows ->
    filename r1 = filename r2 ->
    extract_frame_index (filename r1) = Ok (frame r1)
    /\ frame r1 = frame r2
    /\ time_s r1 = time_s r2.
Proof.
  intros hypot E a rows r1 r2 Hc H1 H2 Hfn.
  pose proof (collect_rows_from _ _ _ _ Hc) as Hall.
  rewrite Forall_forall in Hall.
  destruct (Hall r1 H1) as (d1 & fn1 & l1 & _ & Ha1).
  destruct (Hall r2 H2) as (d2 & fn2 & l2 & _ & Ha2).
  destruct (assemble_row_frame_time _ _ _ _ _ _ _ Ha1) as (_ & F1 & T1).
  destruct (assemble_row_frame_time _ _ _ _ _ _ _ Ha2) as (_ & F2 & T2).
  rewrite <- Hfn in F2.
  assert (Hf : frame r1 = frame r2) by congruence.
  repeat split; trivial. rewrite <- Hf in T2. congruence.
Qed.

Lemma frame_is_a_function_of_the_file_name_witness :
  extract_frame_index
    (filename (Demo.row_kp (L "video_00042.txt") 42 Demo.t42))
  = Ok (frame (Demo.row_kp (L "video_00042.txt") 42 Demo.t42))
  /\ frame (Demo.row_kp (L "video_00042.txt") 42 Demo.t42)
     = frame (Demo.row_box (L "video_00042.txt") 42 Demo.t42)
  /\ time_s (Demo.row_kp (L "video_00042.txt") 42 Demo.t42)
     = time_s (Demo.row_box (L "video_00042.txt") 42 Demo.t42).
Proof.
  apply (frame_is_a_function_of_the_file_name hypot_ref Demo.world
           (Demo.run_args (Some (L "labels")) (Some [L "chunk.tar.gz"]))
           (Demo.dir_rows ++ Demo.chunk_rows)).
  - vm_compute; reflexivity.
  - simpl; auto.
  - simpl; auto.
  - reflexivity.
Defined.

(** The time of a row is there exactly when its frame is there and [fps] is
    not zero, and it is then the frame, converted to a float, divided by
    [fps]. *)
Theorem time_is_frame_over_fps :
  forall (hypot : float -> float -> float) (E : env) (a : args)
         (rows : list row) (r : row),
    collect_rows hypot E a = Ok rows ->
    In r rows ->
    (present (time_s r) <-> present (frame r) /\ float_truth (fps a) = true)
    /\ (forall n x, frame r = Some n -> time_s r = Some x ->
                    exists y, float_of_int n = Ok y /\ x = fdiv y (fps a)).
Proof.
  intros hypot E a rows r Hc Hin.
  pose proof (collect_rows_from _ _ _ _ Hc) as Hall.
  rewrite Forall_forall in Hall.
  destruct (Hall r Hin) as (d & fn & l & _ & Ha).
  destruct (assemble_row_frame_time _ _ _ _ _ _ _ Ha) as (_ & _ & T).
  now apply time_of_frame_value.
Qed.

Lemma time_is_frame_over_fps_witness :
  (present (time_s (Demo.row_box (L "clip_7.txt") 7 Demo.t7))
   <-> present (frame (Demo.row_box (L "clip_7.txt") 7 Demo.t7))
       /\ float_truth Demo.fps30 = true)
  /\ (forall n x,
         frame (Demo.row_box (L "clip_7.txt") 7 Demo.t7) = Some n ->
         time_s (Demo.row_box (L "clip_7.txt") 7 Demo.t7) = Some x ->
         exists y, float_of_int n = Ok y /\ x = fdiv y Demo.fps30).
Proof.
  apply (time_is_frame_over_fps hypot_ref Demo.world
           (Demo.run_args (Some (L "labels")) (Some [L "chunk.tar.gz"]))
           (Demo.dir_rows ++ Demo.chunk_rows)).
  - vm_compute; reflexivity.
  - simpl; auto.
Defined.

(** ** A text is processed as a whole *)

Lemma rows_by_line_raises (hypot : float -> float -> float) (w h : Z)
      (f : float) (fn content line : str) :
  In line (splitlines (strip content)) ->
  raises (row_of_line hypot fn w h f line) ->
  raises (process_txt_handle hypot fn (Ok content) w h f).
Proof.
  intros Hin Hr. rewrite process_txt_handle_eq. unfold rows_by_line.
  destruct (mapM_raises _ _ _ Hin Hr) as [e ->]. exists e. reflexivity.
Qed.

(** One line that raises makes the whole text raise: read from a directory,
    the file then gives no row at all, not even for its valid lines. *)
Theorem raising_line_drops_the_file :
  forall (hypot : float -> float -> float) (E : env) (w h : Z) (f : float)
         (d fn content line : str),
    read_text E (path_join d fn) = Ok content ->
    In line (splitlines (strip content)) ->
    raises (row_of_line hypot fn w h f line) ->
    raises (process_txt_handle hypot fn (Ok content) w h f)
    /\ file_rows hypot E w h f d fn = [].
Proof.
  intros hypot E w h f d fn content line Hread Hin Hr.
  pose proof (rows_by_line_raises _ _ _ _ _ _ _ Hin Hr) as Hp.
  split; [exact Hp|].
  unfold file_rows. rewrite Hread. destruct Hp as [e ->]. reflexivity.
Qed.

Lemma raising_line_drops_the_file_witness :
  raises (process_txt_handle hypot_ref (L "clip_7.txt")
            (Ok (Demo.line_kp ++ [LF] ++ L "nan 0 0 0 0"))
            1080 1920 Demo.fps30)
  /\ file_rows hypot_ref
       (mkEnv (listdir Demo.world)
              (fun _ => Ok (Demo.line_kp ++ [LF] ++ L "nan 0 0 0 0"))
              (tar_open Demo.world) (open_write Demo.world)
             (encodable Demo.world))
       1080 1920 Demo.fps30 (L "labels") (L "clip_7.txt")
     = [].
Proof.
  apply (raising_line_drops_the_file hypot_ref
           (mkEnv (listdir Demo.world)
                  (fun _ => Ok (Demo.line_kp ++ [LF] ++ L "nan 0 0 0 0"))
                  (tar_open Demo.world) (open_write Demo.world)
                  (encodable Demo.world))
           1080 1920 Demo.fps30 (L "labels") (L "clip_7.txt")
           (Demo.line_kp ++ [LF] ++ L "nan 0 0 0 0") (L "nan 0 0 0 0")).
  - reflexivity.
  - vm_compute. right. left. reflexivity.
  - exists ValueError. vm_compute. reflexivity.
Defined.

(** ** The directory source never fails on a file *)

Lemma flat_map_filter_nil {A B : Type} (g : A -> list B) (p : A -> bool)
      (l : list A) :
  (forall x, p x = false -> g x = []) ->
  flat_map g (filter p l) = flat_map g l.
Proof.
  intros H. induction l as [|x l IH]; [reflexivity|].
  cbn [filter flat_map]. destruct (p x) eqn:Hp.
  - cbn [flat_map]. now rewrite IH.
  - now rewrite (H x Hp), IH.
Qed.

(** Once the directory is listed, [process_dir] does not raise, whatever its
    files hold: its rows are those of the label files that are read and
    processed without an exception, by name. *)
Theorem process_dir_keeps_the_files_that_work :
  forall (hypot : float -> float -> float) (E : env) (d : str) (w h : Z)
         (f : float) (names : list str),
    listdir E d = Ok names ->
    process_dir hypot E d w h f
    = Ok (flat_map (file_rows hypot E w h f d)
                   (filter (file_ok hypot E w h f d)
                           (sorted (fun x => x) (filter is_txt names)))).
Proof.
  intros hypot E d w h f names Hl.
  unfold process_dir. rewrite Hl, bind_ok, loop_files_eq. cbn [app].
  f_equal. symmetry. apply flat_map_filter_nil.
  intros fn. unfold file_ok, file_rows.
  destruct (process_txt_handle _ _ _ _ _ _); [discriminate|reflexivity].
Qed.

Lemma process_dir_keeps_the_files_that_work_witness :
  process_dir hypot_ref Demo.world (L "labels") 1080 1920 Demo.fps30
  = Ok (flat_map (file_rows hypot_ref Demo.world 1080 1920 Demo.fps30
                            (L "labels"))
                 (filter (file_ok hypot_ref Demo.world 1080 1920 Demo.fps30
                                  (L "labels"))
                         (sorted (fun x => x)
                                 (filter is_txt Demo.dir_names)))).
Proof.
  apply (process_dir_keeps_the_files_that_work hypot_ref Demo.world
           (L "labels") 1080 1920 Demo.fps30 Demo.dir_names).
  reflexivity.
Defined.

(** ** When an archive fails *)

Lemma mapM_raises_inv {A B : Type} (g : A -> result B) (l : list A) :
  raises (mapM g l) -> exists a, In a l /\ raises (g a).
Proof.
  induction l as [|x l IH]; cbn [mapM].
  - intros [e He]; discriminate.
  - destruct (g x) as [b|e] eqn:Hx.
    + rewrite bind_ok. destruct (mapM g l) as [bs|e].
      * rewrite bind_ok. intros [e He]; discriminate.
      * intros _. destruct IH as [a [Hin Ha]]; [red; eauto|].
        exists a. split; [now right | exact Ha].
    + intros _. exists x. split; [now left | rewrite Hx; red; eauto].
Qed.

(** [process_archive] raises exactly when the archive cannot be opened or
    one of its selected members cannot be read or processed. *)
Theorem process_archive_raises_iff :
  forall (hypot : float -> float -> float) (E : env) (p : str) (w h : Z)
         (f : float),
    raises (process_archive hypot E p w h f)
    <-> raises (tar_open E p)
        \/ exists tar m,
            tar_open E p = Ok tar /\ In m tar /\ selected m = true
            /\ raises (member_rows hypot w h f m).
Proof.
  intros hypot E p w h f. unfold process_archive.
  destruct (tar_open E p) as [tar|e] eqn:Ht.
  - rewrite bind_ok, loop_members_eq.
    fold selected.
    split.
    + intros Hr.
      destruct (mapM (member_rows hypot w h f)
                     (sorted m_name (filter selected tar))) as [rss|e] eqn:Hm.
      * rewrite bind_ok in Hr. destruct Hr as [e He]; discriminate.
      * destruct (mapM_raises_inv (member_rows hypot w h f)
                    (sorted m_name (filter selected tar))) as [m [Hin Hm']];
          [rewrite Hm; red; eauto|].
        right. exists tar, m.
        apply (Permutation_in _ (sorted_perm m_name _)) in Hin.
        apply filter_In in Hin. destruct Hin as [Hin Hsel]. auto.
    + intros [[e He] | (tar' & m & Ht' & Hin & Hsel & Hr)]; [discriminate|].
      inversion Ht'; subst tar'; clear Ht'.
      assert (Hr' : raises (mapM (member_rows hypot w h f)
                                 (sorted m_name (filter selected tar)))).
      { apply mapM_raises with (a := m); [|exact Hr].
        eapply Permutation_in; [symmetry; apply sorted_perm|].
        apply filter_In; auto. }
      destruct Hr' as [e ->]. exists e. reflexivity.
  - split; [intros _; left; red; eauto | intros _; exists e; reflexivity].
Qed.

(** ** What the run leaves behind *)







(** ** The series of the plot *)

Lemma plot_lengths (rows : list row) :
  List.length (plot_times rows) = List.length (plot_dvals rows).
Proof. unfold plot_times, plot_dvals. now rewrite !length_map. Qed.

Lemma plot_dvals_floats (rows : list row) :
  Forall is_float_value (plot_dvals rows).
Proof.
  unfold plot_dvals. apply Forall_forall. intros v Hin.
  apply in_map_iff in Hin. destruct Hin as [r [<- Hr]].
  apply filter_In in Hr. destruct Hr as [_ Hd]. unfold has_distance in Hd.
  destruct (d_px r); [exact I | discriminate].
Qed.

(** The two series of the plot have one entry per row that has a distance,
    and the distances are floats.  On the horizontal axis the rows of a run
    never mix times and frames: with a non-zero [fps] every entry is a time
    (or nothing, for a row without frame), with a zero [fps] every entry is
    a frame (or nothing). *)
Theorem plot_axis_has_one_unit :
  forall (hypot : float -> float -> float) (E : env) (a : args)
         (rows : list row),
    collect_rows hypot E a = Ok rows ->
    List.length (plot_times rows) = List.length (filter has_distance rows)
    /\ List.length (plot_dvals rows) = List.length (filter has_distance rows)
    /\ Forall is_float_value (plot_dvals rows)
    /\ (float_truth (fps a) = true -> Forall is_time_or_none (plot_times rows))
    /\ (float_truth (fps a) = false ->
        Forall is_frame_or_none (plot_times rows)).
Proof.
  intros hypot E a rows Hc.
  pose proof (collect_rows_from _ _ _ _ Hc) as Hall.
  rewrite Forall_forall in Hall.
  assert (Ht : forall r, In r rows ->
                         time_of_frame (frame r) (fps a) = Ok (time_s r)).
  { intros r Hin. destruct (Hall r Hin) as (d & fn & l & _ & Ha).
    now destruct (assemble_row_frame_time _ _ _ _ _ _ _ Ha) as (_ & _ & T). }
  split; [unfold plot_times; now rewrite length_map|].
  split; [unfold plot_dvals; now rewrite length_map|].
  split; [apply plot_dvals_floats|].
  split; intros Hf; apply Forall_forall; intros v Hin;
    unfold plot_times in Hin; apply in_map_iff in Hin;
    destruct Hin as [r [<- Hr]]; apply filter_In in Hr;
    destruct Hr as [Hr _]; specialize (Ht r Hr);
    unfold time_of_frame in Ht; rewrite Hf in Ht.
  - destruct (time_s r); [exact I|].
    destruct (frame r) as [n|]; [|exact I].
    destruct (float_of_int n); [|discriminate].
    rewrite bind_ok in Ht. destruct (truediv _ _); discriminate.
  - destruct (frame r) as [n|]; inversion Ht; exact I.
Qed.

Lemma plot_axis_has_one_unit_witness :
  List.length (plot_times (Demo.dir_rows ++ Demo.chunk_rows))
  = List.length (filter has_distance (Demo.dir_rows ++ Demo.chunk_rows))
  /\ List.length (plot_dvals (Demo.dir_rows ++ Demo.chunk_rows))
     = List.length (filter has_distance (Demo.dir_rows ++ Demo.chunk_rows))
  /\ Forall is_float_value (plot_dvals (Demo.dir_rows ++ Demo.chunk_rows))
  /\ (float_truth Demo.fps30 = true ->
      Forall is_time_or_none (plot_times (Demo.dir_rows ++ Demo.chunk_rows)))
  /\ (float_truth Demo.fps30 = false ->
      Forall is_frame_or_none (plot_times (Demo.dir_rows ++ Demo.chunk_rows))).
Proof.
  apply (plot_axis_has_one_unit hypot_ref Demo.world
           (Demo.run_args (Some (L "labels")) (Some [L "chunk.tar.gz"]))).
  vm_compute; reflexivity.
Defined.

(** ** A frame without diagonal *)

(** When [hypot] of the frame's width and height is zero (both are zero),
    every record with two keypoints makes the assembler raise
    [ZeroDivisionError]: the normalized distance divides by that value. *)
Theorem zero_diagonal_raises :
  forall (hypot : float -> float -> float) (fn : str) (det : detection)
         (w h : Z) (f : float) (fw fh : float),
    float_of_int w = Ok fw ->
    float_of_int h = Ok fh ->
    is_zero (hypot fw fh) = true ->
    (2 <= List.length (kps det))%nat ->
    assemble_row hypot fn det w h f = Raise ZeroDivisionError.
Proof.
  intros hypot fn det w h f fw fh Hw Hh Hz Hk.
  unfold assemble_row, keypoints_px.
  destruct (Nat.ltb_spec (List.length (kps det)) 2) as [Hlt|_]; [lia|].
  destruct (kps det) as [|[[nx ny] c1] [|[[mx my] c2] rest]];
    simpl in Hk; try lia.
  unfold norm_to_px. rewrite Hw, Hh, !bind_ok. cbn [fst snd].
  unfold distances. cbn [fst snd]. rewrite Hw, Hh, !bind_ok.
  unfold truediv. rewrite Hz. reflexivity.
Qed.

Lemma zero_diagonal_raises_witness :
  assemble_row hypot_ref (L "clip_7.txt") Demo.det_kp 0 0 Demo.fps30
  = Raise ZeroDivisionError.
Proof.
  apply (zero_diagonal_raises hypot_ref (L "clip_7.txt") Demo.det_kp 0 0
           Demo.fps30 (S754_zero false) (S754_zero false)).
  - reflexivity.
  - reflexivity.
  - reflexivity.
  - simpl; lia.
Defined.

(** ** The frame indexer, case by case *)

(** What the digits are not: checked on the 256 characters. *)
Lemma digit_classes (c : ascii) :
  implb (isdigit_char c)
        (negb (float_space c) && negb (Ascii.eqb c "_")
         && negb (Ascii.eqb c "-") && negb (Ascii.eqb c "+")) = true
  /\ implb (isdecimal c) (isdigit_char c && negb (Ascii.eqb c "/")) = true.
Proof.
  destruct c as [[] [] [] [] [] [] [] []]; vm_compute; split; reflexivity.
Qed.

Lemma isdigit_char_plain (c : ascii) :
  isdigit_char c = true ->
  float_space c = false /\ Ascii.eqb c "_" = false
  /\ Ascii.eqb c "-" = false /\ Ascii.eqb c "+" = false.
Proof.
  intros H. destruct (digit_classes c) as [H1 _]. rewrite H in H1.
  cbn [implb] in H1.
  repeat (apply andb_true_iff in H1; destruct H1 as [H1 ?]).
  repeat split; now apply negb_true_iff.
Qed.

Lemma isdecimal_isdigit (c : ascii) : isdecimal c = true -> isdigit_char c = true.
Proof.
  intros H. destruct (digit_classes c) as [_ H2]. rewrite H in H2.
  cbn [implb] in H2. now apply andb_true_iff in H2.
Qed.

Lemma isdecimal_not_slash (c : ascii) :
  isdecimal c = true -> Ascii.eqb c "/" = false.
Proof.
  intros H. destruct (digit_classes c) as [_ H2]. rewrite H in H2.
  cbn [implb] in H2. apply andb_true_iff in H2. destruct H2 as [_ H2].
  now apply negb_true_iff.
Qed.

Lemma drop_underscores_plain (s : str) : forall prev,
  forallb (fun c => negb (Ascii.eqb c "_")) s = true ->
  match prev with Some p => Ascii.eqb p "_" = false | None => True end ->
  drop_underscores prev s = Some s.
Proof.
  induction s as [|c s IH]; intros prev Hs Hp.
  - cbn [drop_underscores]. destruct prev as [p|]; [now rewrite Hp|reflexivity].
  - cbn [forallb] in Hs. apply andb_true_iff in Hs. destruct Hs as [Hc Hs].
    apply negb_true_iff in Hc. cbn [drop_underscores]. rewrite Hc.
    assert (Hu : match prev with
                 | Some p => Ascii.eqb p "_"
                 | None => false
                 end = false) by (destruct prev; auto).
    rewrite Hu. cbn [andb]. now rewrite (IH (Some c) Hs Hc).
Qed.

Lemma lstrip_float_plain (s : str) :
  match s with c :: _ => float_space c = false | [] => True end ->
  lstrip_float s = s.
Proof. destruct s as [|c s]; [reflexivity|]. cbn. now intros ->. Qed.

Lemma forallb_rev {A : Type} (p : A -> bool) (l : list A) :
  forallb p (rev l) = forallb p l.
Proof.
  induction l as [|x l IH]; [reflexivity|].
  cbn [rev forallb]. rewrite forallb_app, IH. cbn [forallb].
  rewrite andb_true_r. apply andb_comm.
Qed.

(** [int] on a string that passes [isdigit]: its value when all the digits
    are decimal and they are not too many, [ValueError] otherwise. *)
Lemma py_int_on_digits (s : str) :
  isdigit s = true ->
  py_int s = if all_decimal s && negb (too_long s)
             then Ok (digits_val 0 s) else Raise ValueError.
Proof.
  intros Hd. unfold isdigit in Hd.
  destruct s as [|c s]; [discriminate|].
  assert (Hall : forall x, In x (c :: s) -> isdigit_char x = true)
    by (now apply forallb_forall).
  assert (Hrev : forallb isdigit_char (rev (c :: s)) = true)
    by (now rewrite forallb_rev).
  unfold py_int.
  rewrite (lstrip_float_plain (c :: s))
    by (apply isdigit_char_plain, Hall; now left).
  rewrite (lstrip_float_plain (rev (c :: s))).
  2:{ destruct (rev (c :: s)) as [|x r] eqn:Hr; [exact I|].
      cbn [forallb] in Hrev. apply andb_true_iff in Hrev.
      now apply isdigit_char_plain. }
  rewrite rev_involutive.
  destruct (isdigit_char_plain c (Hall c (or_introl eq_refl)))
    as (_ & _ & Hm & Hp).
  unfold read_sign. rewrite Hm, Hp.
  rewrite drop_underscores_plain.
  - unfold all_decimal, too_long.
    destruct (forallb isdecimal (c :: s)); [|reflexivity].
    destruct (int_max_str_digits <? Z.of_nat (List.length (c :: s)));
      reflexivity.
  - apply forallb_forall. intros x Hx. apply negb_true_iff.
    now apply isdigit_char_plain, Hall.
  - exact I.
Qed.

Lemma all_decimal_isdigit (s : str) :
  s <> [] -> all_decimal s = true -> isdigit s = true.
Proof.
  intros Hne Hd. unfold isdigit. destruct s; [contradiction|].
  apply forallb_forall. intros x Hx. apply isdecimal_isdigit.
  unfold all_decimal in Hd. rewrite forallb_forall in Hd. auto.
Qed.

Lemma digits_val_nonneg (s : str) : forall acc,
  0 <= acc -> all_decimal s = true -> 0 <= digits_val acc s.
Proof.
  unfold all_decimal.
  induction s as [|c s IH]; intros acc Hacc Hs; [exact Hacc|].
  cbn [forallb] in Hs. apply andb_true_iff in Hs. destruct Hs as [Hc Hs].
  cbn [digits_val]. apply IH; [|exact Hs].
  unfold isdecimal in Hc. apply andb_true_iff in Hc. destruct Hc as [Hc _].
  apply Z.leb_le in Hc. unfold digit_val. lia.
Qed.

Lemma span_digits_spec (s : str) :
  s = fst (span_digits s) ++ snd (span_digits s)
  /\ all_decimal (fst (span_digits s)) = true
  /\ match snd (span_digits s) with
     | c :: _ => isdecimal c = false
     | [] => True
     end.
Proof.
  unfold all_decimal.
  induction s as [|c s IH]; [cbn; auto|].
  cbn [span_digits]. destruct (isdecimal c) eqn:Hc.
  - destruct (span_digits s) as [d r]. cbn [fst snd] in *.
    destruct IH as (H1 & H2 & H3). repeat split; trivial.
    + cbn [app]. now f_equal.
    + cbn [forallb]. now rewrite Hc, H2.
  - cbn [fst snd]. repeat split; trivial.
Qed.

Lemma frame_re_match_some (s g : str) :
  frame_re_match s = Some g -> g <> [] /\ all_decimal g = true.
Proof.
  unfold frame_re_match.
  destruct (span_digits_spec s) as (_ & H2 & _).
  destruct (span_digits s) as [d r]. cbn [fst] in H2.
  destruct d as [|c d]; [discriminate|].
  destruct (_ || _); [|discriminate].
  intros K; inversion K; subst. split; [discriminate | exact H2].
Qed.

Lemma frame_re_search_some (s : str) : forall g,
  frame_re_search s = Some g -> g <> [] /\ all_decimal g = true.
Proof.
  induction s as [|c s IH]; intros g; cbn [frame_re_search].
  - destruct (frame_re_match []) eqn:Hm; [|discriminate].
    intros K; inversion K; subst. eapply frame_re_match_some; eauto.
  - destruct (frame_re_match (c :: s)) eqn:Hm.
    + intros K; inversion K; subst. eapply frame_re_match_some; eauto.
    + apply IH.
Qed.

(** [extract_frame_index] raises exactly in two cases: the pattern matches
    a run of more than 4300 digits; or the pattern finds nothing and the
    last segment passes [isdigit] while it is not made of decimal digits
    only or has more than 4300 of them.  The exception is then
    [ValueError]; and a frame it returns is never negative. *)
Theorem extract_frame_index_raises_iff :
  forall (fname : str),
    (raises (extract_frame_index fname)
     <-> (exists g, frame_re_search (basename fname) = Some g
                    /\ too_long g = true)
         \/ (frame_re_search (basename fname) = None
             /\ isdigit (last_segment fname) = true
             /\ (all_decimal (last_segment fname) = false
                 \/ too_long (last_segment fname) = true)))
    /\ (forall e, extract_frame_index fname = Raise e -> e = ValueError)
    /\ (forall n, extract_frame_index fname = Ok (Some n) -> 0 <= n).
Proof.
  intros fname. unfold extract_frame_index, last_segment.
  destruct (frame_re_search (basename fname)) as [g|] eqn:Hs.
  - destruct (frame_re_search_some _ _ Hs) as [Hne Hdec].
    rewrite (py_int_on_digits _ (all_decimal_isdigit _ Hne Hdec)), Hdec.
    cbn [andb]. destruct (too_long g) eqn:Hl; cbn [negb].
    + rewrite bind_raise. split; [split|split].
      * intros _. left. exists g. auto.
      * intros _. red; eauto.
      * intros e K. now inversion K.
      * intros n K; discriminate.
    + rewrite bind_ok. split; [split|split].
      * intros [e He]; discriminate.
      * intros [(g' & K & Hl')|(K & _)]; [|discriminate].
        inversion K; subst g'. rewrite Hl in Hl'. discriminate.
      * intros e K; discriminate.
      * intros n K. inversion K. now apply digits_val_nonneg.
  - set (seg := last (split_on "_" (before_last "." (basename fname))) []).
    assert (Hm : match split_on "_" (before_last "." (basename fname)) with
                 | [] => Ok None
                 | _ :: _ =>
                     if isdigit seg
                     then n <- py_int seg ;; Ok (Some n)
                     else Ok None
                 end
                 = if isdigit seg
                   then n <- py_int seg ;; Ok (Some n)
                   else Ok None).
    { subst seg.
      destruct (split_on "_" (before_last "." (basename fname)));
        reflexivity. }
    rewrite Hm. clear Hm.
    destruct (isdigit seg) eqn:Hd.
    + rewrite (py_int_on_digits _ Hd).
      destruct (all_decimal seg) eqn:Ha; cbn [andb];
        [destruct (too_long seg) eqn:Hl; cbn [negb]|].
      * rewrite bind_raise. split; [split|split].
        -- intros _. right. auto.
        -- intros _. red; eauto.
        -- intros e K. now inversion K.
        -- intros n K; discriminate.
      * rewrite bind_ok. split; [split|split].
        -- intros [e He]; discriminate.
        -- intros [(g' & K & _)|(_ & _ & [K|K])]; discriminate.
        -- intros e K; discriminate.
        -- intros n K. inversion K. now apply digits_val_nonneg.
      * rewrite bind_raise. split; [split|split].
        -- intros _. right. auto.
        -- intros _. red; eauto.
        -- intros e K. now inversion K.
        -- intros n K; discriminate.
    + split; [split|split].
      * intros [e He]; discriminate.
      * intros [(g' & K & _)|(_ & K & _)]; discriminate.
      * intros e K; discriminate.
      * intros n K; discriminate.
Qed.

Lemma str_eqb_false (a b : str) : a <> b -> str_eqb a b = false.
Proof.
  intros H. unfold str_eqb. destruct (list_eq_dec ascii_dec a b);
    [contradiction|reflexivity].
Qed.

Lemma str_eqb_true (a b : str) : str_eqb a b = true -> a = b.
Proof.
  unfold str_eqb. destruct (list_eq_dec ascii_dec a b); [auto|discriminate].
Qed.

Lemma span_digits_app (ds r : str) :
  all_decimal ds = true ->
  match r with c :: _ => isdecimal c = false | [] => True end ->
  span_digits (ds ++ r) = (ds, r).
Proof.
  unfold all_decimal. intros Hd Hr.
  induction ds as [|c ds IH]; cbn [app].
  - destruct r as [|x r]; [reflexivity|]. cbn [span_digits]. now rewrite Hr.
  - cbn [forallb] in Hd. apply andb_true_iff in Hd. destruct Hd as [Hc Hd].
    cbn [span_digits]. now rewrite Hc, (IH Hd).
Qed.

(** A string that holds a character other than a digit: the digits at its
    start stop inside it. *)
Lemma span_digits_stops (p t : str) :
  existsb (fun c => negb (isdecimal c)) p = true ->
  exists d q, q <> [] /\ span_digits (p ++ t) = (d, q ++ t).
Proof.
  induction p as [|c p IH]; [discriminate|].
  cbn [existsb app span_digits]. destruct (isdecimal c) eqn:Hc.
  - cbn [negb orb]. intros H. destruct (IH H) as (d & q & Hq & Hs).
    rewrite Hs. exists (c :: d), q. auto.
  - intros _. exists [], (c :: p). split; [discriminate|reflexivity].
Qed.

Lemma ends_without_digit_tail (c : ascii) (p : str) :
  ends_without_digit (c :: p) -> ends_without_digit p.
Proof.
  unfold ends_without_digit. cbn [rev].
  destruct (rev p) as [|x r]; [auto|]. cbn [app]. auto.
Qed.

Lemma ends_without_digit_exists (c : ascii) (p : str) :
  ends_without_digit (c :: p) ->
  existsb (fun x => negb (isdecimal x)) (c :: p) = true.
Proof.
  unfold ends_without_digit. intros H.
  destruct (rev (c :: p)) as [|x r] eqn:Hr.
  - apply (f_equal (@List.length ascii)) in Hr.
    rewrite length_rev in Hr. discriminate.
  - apply existsb_exists. exists x. split; [|now rewrite H].
    apply in_rev. rewrite Hr. now left.
Qed.

(** The pattern finds the digits that precede [.txt] at the end. *)
Lemma frame_re_search_trailing_digits (p : str) : forall ds,
  ends_without_digit p -> ds <> [] -> all_decimal ds = true ->
  frame_re_search (p ++ ds ++ L ".txt") = Some ds.
Proof.
  induction p as [|c p IH]; intros ds Hp Hne Hd.
  - cbn [app].
    assert (Hm : frame_re_match (ds ++ L ".txt") = Some ds).
    { unfold frame_re_match.
      rewrite span_digits_app; [|exact Hd|reflexivity].
      destruct ds; [contradiction|reflexivity]. }
    destruct (ds ++ L ".txt") eqn:Hs; cbn [frame_re_search]; now rewrite Hm.
  - assert (Hm : frame_re_match ((c :: p) ++ ds ++ L ".txt") = None).
    { unfold frame_re_match.
      destruct (span_digits_stops (c :: p) (ds ++ L ".txt")
                  (ends_without_digit_exists _ _ Hp)) as (d & q & Hq & Hs).
      rewrite Hs. destruct d; [reflexivity|].
      assert (Hlen : (6 <= List.length (q ++ ds ++ L ".txt"))%nat).
      { rewrite !length_app. destruct q; [contradiction|].
        destruct ds; [contradiction|]. simpl. lia. }
      rewrite !str_eqb_false; [reflexivity| |];
        intros K; rewrite K in Hlen; simpl in Hlen; lia. }
    cbn [app] in *. cbn [frame_re_search]. rewrite Hm.
    apply IH; trivial. eapply ends_without_digit_tail; eauto.
Qed.

Lemma after_last_no_sep (sep : ascii) (s : str) : forall cur,
  no_char sep s -> after_last_aux sep cur s = rev cur ++ s.
Proof.
  induction s as [|c s IH]; intros cur H; cbn [after_last_aux].
  - now rewrite app_nil_r.
  - rewrite (H c (or_introl eq_refl)).
    rewrite IH by (intros x Hx; apply H; now right).
    cbn [rev]. now rewrite <- app_assoc.
Qed.

Lemma after_last_sep (sep : ascii) (a : str) : forall cur n,
  after_last_aux sep cur (a ++ sep :: n) = after_last_aux sep [] n.
Proof.
  induction a as [|c a IH]; intros cur n; cbn [app after_last_aux].
  - now rewrite Ascii.eqb_refl.
  - destruct (Ascii.eqb c sep); apply IH.
Qed.

Lemma basename_plain (n : str) : no_char "/" n -> basename n = n.
Proof. intros H. unfold basename. now rewrite after_last_no_sep. Qed.

Lemma basename_path (d n : str) :
  no_char "/" n -> basename (d ++ "/"%char :: n) = n.
Proof.
  intros H. unfold basename. rewrite after_last_sep.
  now rewrite after_last_no_sep.
Qed.

(** [extract_frame_index] looks at what follows the last slash only. *)
Theorem frame_ignores_the_directories :
  forall (d n : str),
    no_char "/" n ->
    extract_frame_index (d ++ "/"%char :: n) = extract_frame_index n.
Proof.
  intros d n H. unfold extract_frame_index.
  now rewrite basename_path, basename_plain.
Qed.

Lemma frame_ignores_the_directories_witness :
  extract_frame_index (L "run/labels" ++ "/"%char :: L "video_00042.txt")
  = extract_frame_index (L "video_00042.txt").
Proof.
  apply (frame_ignores_the_directories (L "run/labels") (L "video_00042.txt")).
  intros c Hc. vm_compute in Hc.
  repeat (destruct Hc as [<- | Hc]; [reflexivity|]). destruct Hc.
Defined.

(** A name made of a prefix that does not end with a digit, decimal digits
    and [.txt]: with at most 4300 digits they are its frame, leading zeros
    included; with more, the lookup raises [ValueError]. *)
Theorem frame_from_trailing_digits :
  forall (p ds : str),
    no_char "/" p ->
    ends_without_digit p ->
    ds <> [] ->
    all_decimal ds = true ->
    extract_frame_index (p ++ ds ++ L ".txt")
    = if too_long ds then Raise ValueError else Ok (Some (digits_val 0 ds)).
Proof.
  intros p ds Hp He Hne Hd. unfold extract_frame_index.
  rewrite basename_plain.
  - rewrite frame_re_search_trailing_digits by assumption.
    rewrite (py_int_on_digits _ (all_decimal_isdigit _ Hne Hd)), Hd.
    cbn [andb]. destruct (too_long ds); reflexivity.
  - intros c Hc. apply in_app_or in Hc. destruct Hc as [Hc|Hc]; [now apply Hp|].
    apply in_app_or in Hc. destruct Hc as [Hc|Hc].
    + apply isdecimal_not_slash. unfold all_decimal in Hd.
      rewrite forallb_forall in Hd. auto.
    + vm_compute in Hc.
      repeat (destruct Hc as [<- | Hc]; [reflexivity|]). destruct Hc.
Qed.

(** [video_00042.txt] has frame 42; with 4301 digits after [video_] the
    lookup raises. *)
Lemma frame_from_trailing_digits_witness :
  extract_frame_index (L "video_" ++ L "00042" ++ L ".txt")
  = Ok (Some (digits_val 0 (L "00042")))
  /\ extract_frame_index
       (L "video_" ++ repeat "1"%char (Z.to_nat 4301) ++ L ".txt")
     = Raise ValueError.
Proof.
  assert (Hp : no_char "/" (L "video_")).
  { intros c Hc. vm_compute in Hc.
    repeat (destruct Hc as [<- | Hc]; [reflexivity|]). destruct Hc. }
  split.
  - change (extract_frame_index (L "video_" ++ L "00042" ++ L ".txt")
            = if too_long (L "00042") then Raise ValueError
              else Ok (Some (digits_val 0 (L "00042")))).
    apply (frame_from_trailing_digits (L "video_") (L "00042")).
    + exact Hp.
    + reflexivity.
    + discriminate.
    + reflexivity.
  - rewrite (frame_from_trailing_digits (L "video_")
               (repeat "1"%char (Z.to_nat 4301))).
    + replace (too_long (repeat "1"%char (Z.to_nat 4301))) with true
        by (vm_compute; reflexivity).
      reflexivity.
    + exact Hp.
    + reflexivity.
    + vm_compute; discriminate.
    + vm_compute; reflexivity.
Defined.

Lemma frame_re_match_shape (s g : str) :
  frame_re_match s = Some g ->
  s = g ++ L ".txt" \/ s = g ++ L ".txt" ++ [LF].
Proof.
  unfold frame_re_match.
  destruct (span_digits_spec s) as (H1 & _ & _).
  destruct (span_digits s) as [d r]. cbn [fst snd] in H1.
  destruct d as [|c d]; [discriminate|].
  destruct (str_eqb r (L ".txt")) eqn:E1.
  - intros K; inversion K; subst g. apply str_eqb_true in E1. subst r. now left.
  - destruct (str_eqb r (L ".txt" ++ [chr 10])) eqn:E2; [|discriminate].
    intros K; inversion K; subst g. apply str_eqb_true in E2. subst r.
    now right.
Qed.

Lemma frame_re_search_shape (s : str) : forall g,
  frame_re_search s = Some g ->
  exists p, s = p ++ g ++ L ".txt" \/ s = p ++ g ++ L ".txt" ++ [LF].
Proof.
  induction s as [|c s IH]; intros g; cbn [frame_re_search].
  - destruct (frame_re_match []) eqn:Hm; [|discriminate].
    intros K; inversion K; subst. exists [].
    now apply frame_re_match_shape.
  - destruct (frame_re_match (c :: s)) eqn:Hm.
    + intros K; inversion K; subst. exists [].
      now apply frame_re_match_shape.
    + intros K. destruct (IH g K) as [p [Hp|Hp]]; exists (c :: p);
        rewrite Hp; auto.
Qed.

(** The pattern finds nothing in a name whose extension is not [txt]. *)
Lemma frame_re_search_other_extension (stem ext : str) :
  no_char "." ext -> ext <> L "txt" -> ext <> L "txt" ++ [LF] ->
  frame_re_search (stem ++ "."%char :: ext) = None.
Proof.
  intros Hdot H1 H2.
  destruct (frame_re_search (stem ++ "."%char :: ext)) as [g|] eqn:Hs;
    [|reflexivity].
  exfalso. destruct (frame_re_search_shape _ _ Hs) as [p [Hp|Hp]].
  - apply (f_equal (after_last_aux "." [])) in Hp.
    rewrite after_last_sep, (after_last_no_sep "." ext [] Hdot) in Hp.
    change (p ++ g ++ L ".txt") with (p ++ g ++ "."%char :: L "txt") in Hp.
    rewrite app_assoc, after_last_sep in Hp. now apply H1.
  - apply (f_equal (after_last_aux "." [])) in Hp.
    rewrite after_last_sep, (after_last_no_sep "." ext [] Hdot) in Hp.
    change (p ++ g ++ L ".txt" ++ [LF])
      with (p ++ g ++ "."%char :: (L "txt" ++ [LF])) in Hp.
    rewrite app_assoc, after_last_sep in Hp. now apply H2.
Qed.

Lemma before_last_app (sep : ascii) (s ext : str) :
  no_char sep ext -> before_last sep (s ++ sep :: ext) = s.
Proof.
  intros Hext.
  assert (Hno : existsb (Ascii.eqb sep) ext = false).
  { destruct (existsb (Ascii.eqb sep) ext) eqn:Hx; [|reflexivity].
    apply existsb_exists in Hx. destruct Hx as [x [Hin Hx]].
    rewrite Ascii.eqb_sym in Hx. now rewrite (Hext x Hin) in Hx. }
  induction s as [|c s IH]; cbn [app before_last].
  - now rewrite Hno, Ascii.eqb_refl.
  - assert (Hyes : existsb (Ascii.eqb sep) (s ++ sep :: ext) = true).
    { apply existsb_exists. exists sep. split; [|apply Ascii.eqb_refl].
      apply in_or_app. right. now left. }
    now rewrite Hyes, IH.
Qed.

Lemma split_on_aux_nonempty (sep : ascii) (s : str) : forall cur,
  split_on_aux sep cur s <> [].
Proof.
  induction s as [|c s IH]; intros cur; cbn [split_on_aux]; [discriminate|].
  destruct (Ascii.eqb c sep); [discriminate|apply IH].
Qed.

Lemma last_cons {A : Type} (x : A) (l : list A) (d : A) :
  l <> [] -> last (x :: l) d = last l d.
Proof. destruct l; [contradiction|reflexivity]. Qed.

Lemma split_on_last_sep (sep : ascii) (a : str) : forall cur n,
  last (split_on_aux sep cur (a ++ sep :: n)) []
  = last (split_on_aux sep [] n) [].
Proof.
  induction a as [|c a IH]; intros cur n; cbn [app split_on_aux].
  - rewrite Ascii.eqb_refl. apply last_cons, split_on_aux_nonempty.
  - destruct (Ascii.eqb c sep).
    + rewrite last_cons by apply split_on_aux_nonempty. apply IH.
    + apply IH.
Qed.

Lemma split_on_no_sep (sep : ascii) (n : str) : forall cur,
  no_char sep n -> split_on_aux sep cur n = [rev cur ++ n].
Proof.
  induction n as [|c n IH]; intros cur H; cbn [split_on_aux].
  - now rewrite app_nil_r.
  - rewrite (H c (or_introl eq_refl)).
    rewrite IH by (intros x Hx; apply H; now right).
    cbn [rev]. now rewrite <- app_assoc.
Qed.

Lemma all_decimal_no_char (x : ascii) (ds : str) :
  isdecimal x = false -> all_decimal ds = true -> no_char x ds.
Proof.
  intros Hx Hd c Hc. unfold all_decimal in Hd. rewrite forallb_forall in Hd.
  destruct (Ascii.eqb_spec c x) as [->|_]; [|reflexivity].
  rewrite (Hd x Hc) in Hx. discriminate.
Qed.

(** A name [<prefix>_<digits>.<ext>] whose extension is not [txt] (a label
    file named [.TXT], say) gets its frame from the fallback: the digits
    after the last underscore when they are at most 4300; with more, the
    lookup raises [ValueError]. *)
Theorem frame_from_last_segment :
  forall (pre ds ext : str),
    no_char "/" pre -> no_char "/" ext -> no_char "." ext ->
    ext <> L "txt" -> ext <> L "txt" ++ [LF] ->
    ds <> [] -> all_decimal ds = true ->
    extract_frame_index (pre ++ "_"%char :: ds ++ "."%char :: ext)
    = if too_long ds then Raise ValueError else Ok (Some (digits_val 0 ds)).
Proof.
  intros pre ds ext Hpre Hext Hdot H1 H2 Hne Hd.
  unfold extract_frame_index.
  rewrite basename_plain.
  2:{ intros c Hc. apply in_app_or in Hc. destruct Hc as [Hc|Hc]; [auto|].
      destruct Hc as [<-|Hc]; [reflexivity|].
      apply in_app_or in Hc. destruct Hc as [Hc|Hc].
      - now apply (all_decimal_no_char "/" ds).
      - destruct Hc as [<-|Hc]; [reflexivity|auto]. }
  replace (pre ++ "_"%char :: ds ++ "."%char :: ext)
    with ((pre ++ "_"%char :: ds) ++ "."%char :: ext)
    by (now rewrite <- app_assoc).
  rewrite frame_re_search_other_extension by assumption.
  rewrite before_last_app by assumption.
  unfold split_on. 
  assert (Hseg : last (split_on_aux "_" [] (pre ++ "_"%char :: ds)) [] = ds).
  { rewrite split_on_last_sep, split_on_no_sep; [reflexivity|].
    now apply (all_decimal_no_char "_" ds). }
  rewrite Hseg.
  pose proof (all_decimal_isdigit _ Hne Hd) as Hdig.
  rewrite Hdig, (py_int_on_digits _ Hdig), Hd. cbn [andb].
  destruct (split_on_aux "_" [] (pre ++ "_"%char :: ds)) eqn:Hsp;
    [now apply split_on_aux_nonempty in Hsp|].
  destruct (too_long ds); reflexivity.
Qed.

Lemma frame_from_last_segment_witness :
  extract_frame_index (L "clip" ++ "_"%char :: L "7" ++ "."%char :: L "TXT")
  = Ok (Some (digits_val 0 (L "7"))).
Proof.
  change (extract_frame_index
            (L "clip" ++ "_"%char :: L "7" ++ "."%char :: L "TXT")
          = if too_long (L "7") then Raise ValueError
            else Ok (Some (digits_val 0 (L "7")))).
  apply (frame_from_last_segment (L "clip") (L "7") (L "TXT")).
  - intros c Hc. vm_compute in Hc.
    repeat (destruct Hc as [<- | Hc]; [reflexivity|]). destruct Hc.
  - intros c Hc. vm_compute in Hc.
    repeat (destruct Hc as [<- | Hc]; [reflexivity|]). destruct Hc.
  - intros c Hc. vm_compute in Hc.
    repeat (destruct Hc as [<- | Hc]; [reflexivity|]). destruct Hc.
  - discriminate.
  - discriminate.
  - discriminate.
  - reflexivity.
Defined.

(** ** The order in which the directory is listed *)

Lemma code_inj (a b : ascii) : code a = code b -> a = b.
Proof.
  unfold code. intros H. apply Nat2Z.inj in H.
  rewrite <- (ascii_nat_embedding a), <- (ascii_nat_embedding b).
  now rewrite H.
Qed.

Lemma str_le_antisym (a : str) : forall b,
  str_le a b -> str_le b a -> a = b.
Proof.
  unfold str_le.
  induction a as [|x a IH]; intros [|y b]; cbn [str_ltb]; try easy.
  destruct (Z.ltb_spec (code y) (code x)), (Z.ltb_spec (code x) (code y));
    try easy; try lia.
  intros H1 H2. f_equal; [apply code_inj; lia | now apply IH].
Qed.

Lemma filter_permutation {A : Type} (p : A -> bool) (l l' : list A) :
  Permutation l l' -> Permutation (filter p l) (filter p l').
Proof.
  induction 1 as [|x l l' _ IH|x y l|l l' l'' _ IH1 _ IH2]; cbn [filter].
  - constructor.
  - destruct (p x); [now constructor | exact IH].
  - destruct (p x), (p y); try reflexivity. apply perm_swap.
  - now transitivity (filter p l').
Qed.

(** Two sorted lists of names with the same elements are the same list. *)
Lemma sorted_names_unique (l : list str) : forall l',
  StronglySorted (name_le (fun x => x)) l ->
  StronglySorted (name_le (fun x => x)) l' ->
  Permutation l l' -> l = l'.
Proof.
  induction l as [|x l IH]; intros l' Hs Hs' Hp.
  - apply Permutation_nil in Hp. now subst.
  - destruct l' as [|y l'];
      [apply Permutation_sym, Permutation_nil in Hp; discriminate|].
    inversion Hs as [|? ? Hsl Hx]; subst.
    inversion Hs' as [|? ? Hsl' Hy]; subst.
    rewrite Forall_forall in Hx, Hy.
    assert (Hxy : x = y).
    { assert (Hin1 : In x (y :: l'))
        by (eapply Permutation_in; [exact Hp | now left]).
      assert (Hin2 : In y (x :: l))
        by (eapply Permutation_in; [symmetry; exact Hp | now left]).
      destruct Hin1 as [->|Hin1]; [reflexivity|].
      destruct Hin2 as [->|Hin2]; [reflexivity|].
      apply str_le_antisym; [apply (Hx y Hin2) | apply (Hy x Hin1)]. }
    subst y. f_equal. apply IH; trivial.
    now apply Permutation_cons_inv in Hp.
Qed.

(** The rows of a directory do not depend on the order in which the system
    lists its entries. *)
Theorem dir_rows_ignore_the_listing_order :
  forall (hypot : float -> float -> float) (E E' : env) (d : str) (w h : Z)
         (f : float) (names names' : list str),
    listdir E d = Ok names ->
    listdir E' d = Ok names' ->
    Permutation names names' ->
    (forall p, read_text E p = read_text E' p) ->
    process_dir hypot E d w h f = process_dir hypot E' d w h f.
Proof.
  intros hypot E E' d w h f names names' Hl Hl' Hp Hr.
  unfold process_dir. rewrite Hl, Hl', !bind_ok, !loop_files_eq.
  cbn [app]. f_equal.
  assert (Hs : sorted (fun x => x) (filter is_txt names)
               = sorted (fun x => x) (filter is_txt names')).
  { apply sorted_names_unique; try apply sorted_sorted.
    rewrite sorted_perm, sorted_perm. now apply filter_permutation. }
  rewrite Hs. apply flat_map_ext. intros fn. unfold file_rows. now rewrite Hr.
Qed.

Lemma dir_rows_ignore_the_listing_order_witness :
  process_dir hypot_ref Demo.world (L "labels") 1080 1920 Demo.fps30
  = process_dir hypot_ref
      (mkEnv (fun _ => Ok (rev Demo.dir_names)) (read_text Demo.world)
             (tar_open Demo.world) (open_write Demo.world)
             (encodable Demo.world))
      (L "labels") 1080 1920 Demo.fps30.
Proof.
  apply (dir_rows_ignore_the_listing_order hypot_ref Demo.world
           (mkEnv (fun _ => Ok (rev Demo.dir_names)) (read_text Demo.world)
                  (tar_open Demo.world) (open_write Demo.world)
                  (encodable Demo.world))
           (L "labels") 1080 1920 Demo.fps30
           Demo.dir_names (rev Demo.dir_names)).
  - reflexivity.
  - reflexivity.
  - apply Permutation_rev.
  - reflexivity.
Defined.

(** ** White space around a line *)

Lemma lstrip_spec (s : str) :
  exists ws, forallb isspace ws = true /\ s = ws ++ lstrip s.
Proof.
  induction s as [|c s IH]; [exists []; auto|].
  cbn [lstrip]. destruct (isspace c) eqn:Hc.
  - destruct IH as (ws & Hws & Hs). exists (c :: ws). cbn [forallb app].
    rewrite Hc, Hws. split; [reflexivity | now f_equal].
  - exists []. auto.
Qed.

Lemma split_ws_aux_spaces (ws : str) : forall cur,
  forallb isspace ws = true ->
  split_ws_aux cur ws = match cur with [] => [] | _ => [rev cur] end.
Proof.
  induction ws as [|c ws IH]; intros cur H; [reflexivity|].
  cbn [forallb] in H. apply andb_true_iff in H. destruct H as [Hc H].
  cbn [split_ws_aux]. rewrite Hc.
  destruct cur; rewrite (IH [] H); reflexivity.
Qed.

Lemma split_ws_aux_trailing (s ws : str) : forall cur,
  forallb isspace ws = true ->
  split_ws_aux cur (s ++ ws) = split_ws_aux cur s.
Proof.
  induction s as [|c s IH]; intros cur H; cbn [app].
  - now rewrite split_ws_aux_spaces.
  - cbn [split_ws_aux]. destruct (isspace c).
    + destruct cur; now rewrite IH.
    + now apply IH.
Qed.

Lemma split_ws_leading (ws s : str) :
  forallb isspace ws = true -> split_ws (ws ++ s) = split_ws s.
Proof.
  unfold split_ws. induction ws as [|c ws IH]; intros H; [reflexivity|].
  cbn [forallb] in H. apply andb_true_iff in H. destruct H as [Hc H].
  cbn [app split_ws_aux]. rewrite Hc. now apply IH.
Qed.

Lemma split_ws_trailing (s ws : str) :
  forallb isspace ws = true -> split_ws (s ++ ws) = split_ws s.
Proof. intros H. unfold split_ws. now apply split_ws_aux_trailing. Qed.

(** [strip] before [split] changes nothing. *)
Lemma split_ws_strip (s : str) : split_ws (strip s) = split_ws s.
Proof.
  unfold strip, rstrip.
  destruct (lstrip_spec s) as (ws1 & H1 & E1).
  destruct (lstrip_spec (rev (lstrip s))) as (ws2 & H2 & E2).
  rewrite E1 at 2. rewrite split_ws_leading by exact H1.
  apply (f_equal (@rev ascii)) in E2.
  rewrite rev_involutive, rev_app_distr in E2.
  rewrite E2 at 2. rewrite split_ws_trailing; [reflexivity|].
  now rewrite forallb_rev.
Qed.

Lemma parse_label_line_tokens (l1 l2 : str) :
  split_ws (strip l1) = split_ws (strip l2) ->
  parse_label_line l1 = parse_label_line l2.
Proof. intros H. unfold parse_label_line. cbv zeta. now rewrite H. Qed.

Lemma row_of_line_tokens (hypot : float -> float -> float) (fn : str)
      (w h : Z) (f : float) (l1 l2 : str) :
  split_ws (strip l1) = split_ws (strip l2) ->
  row_of_line hypot fn w h f l1 = row_of_line hypot fn w h f l2.
Proof.
  intros H. pose proof (parse_label_line_tokens _ _ H) as Hp.
  assert (Hb : forall l, strip l = [] ->
                         row_of_line hypot fn w h f l = Ok None
                         /\ split_ws (strip l) = []).
  { intros l Hl. unfold row_of_line. now rewrite Hl. }
  assert (Hn : forall l, split_ws (strip l) = [] ->
                         row_of_line hypot fn w h f l = Ok None).
  { intros l Hl. unfold row_of_line.
    rewrite parse_label_line_few_tokens by (rewrite Hl; simpl; lia).
    now destruct (strip l). }
  destruct (strip l1) as [|c1 s1] eqn:E1.
  - destruct (Hb l1 E1) as [R1 T1]. rewrite R1. symmetry. apply Hn.
    now rewrite <- H.
  - destruct (strip l2) as [|c2 s2] eqn:E2.
    + destruct (Hb l2 E2) as [R2 T2]. rewrite R2. apply Hn.
      rewrite E1, H. reflexivity.
    + unfold row_of_line. now rewrite E1, E2, Hp.
Qed.

(** White space before and after a line changes neither what the parser
    returns nor the row. *)
Theorem surrounding_white_space_is_ignored :
  forall (hypot : float -> float -> float) (fn : str) (w h : Z) (f : float)
         (pre line post : str),
    forallb isspace pre = true ->
    forallb isspace post = true ->
    parse_label_line (pre ++ line ++ post) = parse_label_line line
    /\ row_of_line hypot fn w h f (pre ++ line ++ post)
       = row_of_line hypot fn w h f line.
Proof.
  intros hypot fn w h f pre line post Hpre Hpost.
  assert (H : split_ws (strip (pre ++ line ++ post)) = split_ws (strip line)).
  { rewrite !split_ws_strip, split_ws_leading by exact Hpre.
    now apply split_ws_trailing. }
  split; [now apply parse_label_line_tokens | now apply row_of_line_tokens].
Qed.

Lemma surrounding_white_space_is_ignored_witness :
  parse_label_line (L "  " ++ Demo.line_kp ++ [chr 9; CR])
  = parse_label_line Demo.line_kp
  /\ row_of_line hypot_ref (L "clip_7.txt") 1080 1920 Demo.fps30
                 (L "  " ++ Demo.line_kp ++ [chr 9; CR])
     = row_of_line hypot_ref (L "clip_7.txt") 1080 1920 Demo.fps30
                   Demo.line_kp.
Proof.
  apply (surrounding_white_space_is_ignored hypot_ref (L "clip_7.txt")
           1080 1920 Demo.fps30 (L "  ") Demo.line_kp [chr 9; CR]).
  - reflexivity.
  - reflexivity.
Defined.

(** ** The distances of a row *)

Lemma assemble_row_metric (hypot : float -> float -> float) (fn : str)
      (det : detection) (w h : Z) (f : float) (r : row)
      (nx ny mx my : float) (c1 c2 : option float) (rest : list keypoint) :
  kps det = (nx, ny, c1) :: (mx, my, c2) :: rest ->
  assemble_row hypot fn det w h f = Ok r ->
  exists fw fh,
    float_of_int w = Ok fw /\ float_of_int h = Ok fh
    /\ is_zero (hypot fw fh) = false
    /\ nose_x r = Some (fmul nx fw) /\ nose_y r = Some (fmul ny fh)
    /\ mouth_x r = Some (fmul mx fw) /\ mouth_y r = Some (fmul my fh)
    /\ d_px r = Some (hypot (fsub (fmul nx fw) (fmul mx fw))
                            (fsub (fmul ny fh) (fmul my fh)))
    /\ d_norm r = Some (fdiv (hypot (fsub (fmul nx fw) (fmul mx fw))
                                    (fsub (fmul ny fh) (fmul my fh)))
                             (hypot fw fh)).
Proof.
  intros Hk. unfold assemble_row, keypoints_px. rewrite Hk.
  change (List.length _ <? 2)%nat with false. cbv iota.
  unfold norm_to_px.
  destruct (float_of_int w) as [fw|e] eqn:Hw; [|discriminate].
  rewrite !bind_ok.
  destruct (float_of_int h) as [fh|e] eqn:Hh; [|discriminate].
  rewrite !bind_ok. cbn [fst snd]. unfold distances. cbn [fst snd].
  rewrite Hw, Hh, !bind_ok. unfold truediv.
  destruct (is_zero (hypot fw fh)) eqn:Hz; [discriminate|].
  rewrite !bind_ok. cbn [fst snd].
  destruct (extract_frame_index fn) as [fr|e]; [|discriminate].
  rewrite bind_ok.
  destruct (time_of_frame fr f) as [t|e]; [|discriminate].
  rewrite bind_ok. intros K; inversion K; subst; clear K.
  exists fw, fh. cbn. repeat split; try reflexivity; assumption.
Qed.

(** In every row of a run that has its coordinates, the distance in pixels
    is [hypot] of the differences of the coordinates, and the normalized
    distance is that distance divided by [hypot] of the width and the
    height, which is then not zero. *)
Theorem distances_follow_the_coordinates :
  forall (hypot : float -> float -> float) (E : env) (a : args)
         (rows : list row) (r : row) (nx ny mx my : float),
    collect_rows hypot E a = Ok rows ->
    In r rows ->
    nose_x r = Some nx -> nose_y r = Some ny ->
    mouth_x r = Some mx -> mouth_y r = Some my ->
    exists fw fh,
      float_of_int (width a) = Ok fw /\ float_of_int (height a) = Ok fh
      /\ is_zero (hypot fw fh) = false
      /\ d_px r = Some (hypot (fsub nx mx) (fsub ny my))
      /\ d_norm r = Some (fdiv (hypot (fsub nx mx) (fsub ny my))
                               (hypot fw fh)).
Proof.
  intros hypot E a rows r nx ny mx my Hc Hin Hnx Hny Hmx Hmy.
  pose proof (collect_rows_from _ _ _ _ Hc) as Hall.
  rewrite Forall_forall in Hall.
  destruct (Hall r Hin) as (det & fn & l & _ & Ha).
  destruct (assemble_row_fields _ _ _ _ _ _ _ Ha) as [_ Habs].
  destruct (Nat.ltb_spec (List.length (kps det)) 2) as [Hlt|Hge].
  - destruct (Habs Hlt) as (K & _). red in K. congruence.
  - destruct (kps det) as [|[[x1 y1] c1] [|[[x2 y2] c2] rest]] eqn:Hk;
      simpl in Hge; try lia.
    destruct (assemble_row_metric _ _ _ _ _ _ _ _ _ _ _ _ _ _ Hk Ha)
      as (fw & fh & Hw & Hh & Hz & A & B & C & D & P & N).
    exists fw, fh.
    assert (nx = fmul x1 fw) by congruence.
    assert (ny = fmul y1 fh) by congruence.
    assert (mx = fmul x2 fw) by congruence.
    assert (my = fmul y2 fh) by congruence.
    subst. auto.
Qed.

Lemma distances_follow_the_coordinates_witness :
  exists fw fh,
    float_of_int 1080 = Ok fw /\ float_of_int 1920 = Ok fh
    /\ is_zero (hypot_ref fw fh) = false
    /\ d_px (Demo.row_kp (L "a_2.txt") 2 Demo.t2)
       = Some (hypot_ref (fsub Demo.f540 Demo.f540)
                         (fsub Demo.f960 Demo.f1152))
    /\ d_norm (Demo.row_kp (L "a_2.txt") 2 Demo.t2)
       = Some (fdiv (hypot_ref (fsub Demo.f540 Demo.f540)
                               (fsub Demo.f960 Demo.f1152))
                    (hypot_ref fw fh)).
Proof.
  apply (distances_follow_the_coordinates hypot_ref Demo.world
           (Demo.run_args (Some (L "labels")) (Some [L "chunk.tar.gz"]))
           (Demo.dir_rows ++ Demo.chunk_rows)
           (Demo.row_kp (L "a_2.txt") 2 Demo.t2)).
  - vm_compute; reflexivity.
  - simpl; auto 10.
  - reflexivity.
  - reflexivity.
  - reflexivity.
  - reflexivity.
Defined.

(** ** Which tokens are the nose and the mouth *)

Lemma read_triplets_two (a b c d : float) (rest : list float) :
  (List.length (a :: b :: c :: d :: rest) mod 3 = 0)%nat ->
  exists e g rest', rest = e :: g :: rest'
                    /\ read_triplets (a :: b :: c :: d :: rest)
                       = (a, b, Some c) :: (d, e, Some g) :: read_triplets rest'.
Proof.
  intros H. destruct rest as [|e [|g rest']].
  - discriminate H.
  - discriminate H.
  - exists e, g, rest'. split; reflexivity.
Qed.

(** A line of nine or more numeric tokens gives a row whose nose is made of
    the sixth and seventh tokens.  The mouth is made of the ninth and tenth
    when the number of tokens after the box is a multiple of three (the
    eighth is then a confidence), and of the eighth and ninth otherwise. *)
Theorem nose_and_mouth_tokens :
  forall (hypot : float -> float -> float) (fn : str) (w h : Z) (f : float)
         (line : str) (vals : list float) (r : row),
    line_values line = Ok vals ->
    (9 <= List.length vals)%nat ->
    row_of_line hypot fn w h f line = Ok (Some r) ->
    exists fw fh,
      float_of_int w = Ok fw /\ float_of_int h = Ok fh
      /\ nose_x r = Some (fmul (nth 5 vals S754_nan) fw)
      /\ nose_y r = Some (fmul (nth 6 vals S754_nan) fh)
      /\ (if ((List.length vals - 5) mod 3 =? 0)%nat
          then mouth_x r = Some (fmul (nth 8 vals S754_nan) fw)
               /\ mouth_y r = Some (fmul (nth 9 vals S754_nan) fh)
          else mouth_x r = Some (fmul (nth 7 vals S754_nan) fw)
               /\ mouth_y r = Some (fmul (nth 8 vals S754_nan) fh)).
Proof.
  intros hypot fn w h f line vals r Hv Hlen Hrow.
  destruct vals as [|v0 [|v1 [|v2 [|v3 [|v4 [|a [|b [|c [|d rest]]]]]]]]];
    simpl in Hlen; try lia.
  pose proof (line_values_strip _ _ _ Hv) as Hs.
  pose proof (parse_label_line_values _ _ _ _ _ _ _ Hv) as Hp.
  destruct (int_of_float v0) as [cl|e] eqn:Hc.
  2:{ unfold row_of_line in Hrow. rewrite Hp in Hrow.
      destruct (strip line); discriminate. }
  rewrite bind_ok in Hp.
  rewrite (row_of_line_record _ _ _ _ _ _ _ Hs Hp) in Hrow.
  destruct (assemble_row _ _ _ _ _ _) as [r'|e] eqn:Ha; [|discriminate].
  rewrite bind_ok in Hrow. inversion Hrow; subst r'; clear Hrow.
  set (rem := a :: b :: c :: d :: rest) in *.
  change (List.length (v0 :: v1 :: v2 :: v3 :: v4 :: rem) - 5)%nat
    with (List.length rem).
  cbn [nth].
  destruct (Nat.eqb_spec (List.length rem mod 3) 0) as [H3|H3].
  - destruct (read_triplets_two a b c d rest H3)
      as (e & g & rest' & Hrest & Ht).
    assert (Hk : kps (mkDetection cl v1 v2 v3 v4 (group_keypoints rem))
                 = (a, b, Some c) :: (d, e, Some g) :: read_triplets rest').
    { cbn [kps]. rewrite group_keypoints_triplets by exact H3. exact Ht. }
    destruct (assemble_row_metric _ _ _ _ _ _ _ _ _ _ _ _ _ _ Hk Ha)
      as (fw & fh & Hw & Hh & _ & A & B & C & D & _).
    exists fw, fh. subst rem rest. cbn [nth]. repeat split; assumption.
  - assert (Hk : kps (mkDetection cl v1 v2 v3 v4 (group_keypoints rem))
                 = (a, b, None) :: (c, d, None) :: read_pairs rest).
    { cbn [kps]. unfold group_keypoints. subst rem.
      rewrite <- Nat2Z.inj_mod with (m := 3%nat).
      destruct (Z.eqb_spec
                  (Z.of_nat (List.length (a :: b :: c :: d :: rest) mod 3)) 0)
        as [K|_]; [lia|].
      destruct (_ =? 0); reflexivity. }
    destruct (assemble_row_metric _ _ _ _ _ _ _ _ _ _ _ _ _ _ Hk Ha)
      as (fw & fh & Hw & Hh & _ & A & B & C & D & _).
    exists fw, fh. subst rem. cbn [nth]. repeat split; assumption.
Qed.

Lemma nose_and_mouth_tokens_witness :
  exists fw fh,
    float_of_int 1080 = Ok fw /\ float_of_int 1920 = Ok fh
    /\ nose_x (Demo.row_kp (L "a_2.txt") 2 Demo.t2) = Some (fmul half fw)
    /\ nose_y (Demo.row_kp (L "a_2.txt") 2 Demo.t2) = Some (fmul half fh)
    /\ (if ((List.length
               (S754_zero false :: half :: half :: Demo.tenth :: Demo.tenth
                  :: [half; half; Demo.conf9; half; six_tenths; Demo.conf8])
             - 5) mod 3 =? 0)%nat
        then mouth_x (Demo.row_kp (L "a_2.txt") 2 Demo.t2)
             = Some (fmul half fw)
             /\ mouth_y (Demo.row_kp (L "a_2.txt") 2 Demo.t2)
                = Some (fmul six_tenths fh)
        else mouth_x (Demo.row_kp (L "a_2.txt") 2 Demo.t2)
             = Some (fmul Demo.conf9 fw)
             /\ mouth_y (Demo.row_kp (L "a_2.txt") 2 Demo.t2)
                = Some (fmul half fh)).
Proof.
  apply (nose_and_mouth_tokens hypot_ref (L "a_2.txt") 1080 1920 Demo.fps30
           Demo.line_kp
           (S754_zero false :: half :: half :: Demo.tenth :: Demo.tenth
              :: [half; half; Demo.conf9; half; six_tenths; Demo.conf8])
           (Demo.row_kp (L "a_2.txt") 2 Demo.t2)).
  - vm_compute; reflexivity.
  - simpl; lia.
  - vm_compute; reflexivity.
Defined.
